(** * Script teleprompter: dialogue parser, recording session and production walk

    A shallow embedding of [script.js].  The application is a single-page
    browser program: one global [appState] object, mutated by event handlers
    (button clicks, timers, media-recorder, audio-element and
    speech-recognition callbacks).  The embedding keeps that shape:

    - JavaScript strings are sequences of code units; scripts are taken to be
      Latin-1 text (code units below 256), on which [toLowerCase], [trim] and
      the regular-expression classes [A-Z], [\d] and [\s] are written out;
    - a JS [Set] is the list of its members in insertion order (the code
      relies on that order through [Array.from]);
    - the nested [Map] of recordings is a [gmap] of [gmap]s;
    - every handler is a function on the state of the page ([World]): the
      application state together with the part of the browser the handlers
      talk to (pending timers, audio elements, the recogniser, two
      check boxes, the status text);
    - a handler that can let a [TypeError] escape returns a [Completion]. *)

From Stdlib Require Import String Ascii List ZArith Bool Lia.
From stdpp Require Import base gmap strings list.
Import ListNotations.

(** ** JavaScript strings *)

Module Js.

Definition code (c : ascii) : nat := nat_of_ascii c.

(** The character class [A-Z]. *)
Definition isUpperAZ (c : ascii) : bool := (65 <=? code c) && (code c <=? 90).

(** The character class [\d]. *)
Definition isDigit (c : ascii) : bool := (48 <=? code c) && (code c <=? 57).

(** The class [\s], which is also what [trim] strips: TAB, LF, VT, FF, CR,
    SPACE and NO-BREAK SPACE are its members below 256. *)
Definition isWhiteSpace (c : ascii) : bool :=
  ((9 <=? code c) && (code c <=? 13)) || (code c =? 32) || (code c =? 160).

(** [toLowerCase] on one code unit: A-Z, and the Latin-1 capitals
    U+00C0..U+00DE without the multiplication sign U+00D7. *)
Definition lowerChar (c : ascii) : ascii :=
  let n := code c in
  if ((65 <=? n) && (n <=? 90))
     || ((192 <=? n) && (n <=? 222) && negb (n =? 215))
  then ascii_of_nat (n + 32) else c.

Fixpoint toLowerCase (s : string) : string :=
  match s with
  | EmptyString => EmptyString
  | String c s' => String (lowerChar c) (toLowerCase s')
  end.

Definition startsWith (s p : string) : bool := String.prefix p s.

Definition endsWith (s p : string) : bool :=
  (String.length p <=? String.length s)
  && String.eqb (String.substring (String.length s - String.length p)
                                  (String.length p) s) p.

(** [s.includes(sub)]: [sub] starts at some position of [s]. *)
Fixpoint includes (s sub : string) : bool :=
  startsWith s sub ||
  match s with
  | EmptyString => false
  | String _ s' => includes s' sub
  end.

(** [s.split(sep)] for a one-character separator; the result is never
    empty: [''.split(' ')] is [['']]. *)
Fixpoint split (sep : ascii) (s : string) : list string :=
  match s with
  | EmptyString => [EmptyString]
  | String c s' =>
      if Ascii.eqb c sep then EmptyString :: split sep s'
      else match split sep s' with
           | w :: ws => String c w :: ws
           | [] => [String c EmptyString]
           end
  end.

Fixpoint trimStart (s : string) : string :=
  match s with
  | EmptyString => EmptyString
  | String c s' => if isWhiteSpace c then trimStart s' else s
  end.

Fixpoint trimEnd (s : string) : string :=
  match s with
  | EmptyString => EmptyString
  | String c s' =>
      match trimEnd s' with
      | EmptyString => if isWhiteSpace c then EmptyString else String c EmptyString
      | t => String c t
      end
  end.

Definition trim (s : string) : string := trimEnd (trimStart s).

Fixpoint all (p : ascii -> bool) (s : string) : bool :=
  match s with
  | EmptyString => true
  | String c s' => p c && all p s'
  end.

(** Drop the longest prefix whose characters satisfy [p]. *)
Fixpoint dropWhile (p : ascii -> bool) (s : string) : string :=
  match s with
  | EmptyString => EmptyString
  | String c s' => if p c then dropWhile p s' else s
  end.

Definition headIs (p : ascii -> bool) (s : string) : bool :=
  match s with
  | EmptyString => false
  | String c _ => p c
  end.

Definition nonEmpty (s : string) : bool := negb (String.length s =? 0).

(** Truthiness of a string: the empty string is falsy. *)
Definition truthy (s : string) : bool := nonEmpty s.

Definition LF : ascii := ascii_of_nat 10.
Definition SPACE : ascii := ascii_of_nat 32.

(** *** The regular expressions of the script

    Each is anchored and built from disjoint character classes, so matching
    is a deterministic left-to-right scan. *)

(** [/^(INT\.|EXT\.)/] *)
Definition re_sceneHeading (s : string) : bool :=
  startsWith s "INT." || startsWith s "EXT.".

(** [/^[A-Z]+,\s*\d+/] *)
Definition re_nameCommaDigits (s : string) : bool :=
  headIs isUpperAZ s &&
  match dropWhile isUpperAZ s with
  | String c r => Ascii.eqb c "," && headIs isDigit (dropWhile isWhiteSpace r)
  | EmptyString => false
  end.

(** [/^[A-Z]+\s+\(/] *)
Definition re_nameSpaceParen (s : string) : bool :=
  headIs isUpperAZ s &&
  let r := dropWhile isUpperAZ s in
  headIs isWhiteSpace r && headIs (Ascii.eqb "(") (dropWhile isWhiteSpace r).

(** [/^[A-Z]+$/] *)
Definition re_allUpper (s : string) : bool := nonEmpty s && all isUpperAZ s.

(** [/^[A-Z\s]+$/] *)
Definition re_allUpperOrSpace (s : string) : bool :=
  nonEmpty s && all (fun c => isUpperAZ c || isWhiteSpace c) s.

(** *** [Set] of strings, in insertion order *)

Definition Set_has (s : list string) (x : string) : bool :=
  existsb (String.eqb x) s.

Definition Set_add (s : list string) (x : string) : list string :=
  if Set_has s x then s else s ++ [x].


(** [arr.indexOf(x)], [-1] when absent. *)
Fixpoint indexOf (arr : list string) (x : string) : Z :=
  match arr with
  | [] => (-1)%Z
  | y :: ys => if String.eqb y x then 0%Z
               else let i := indexOf ys x in
                    if (i <? 0)%Z then (-1)%Z else (i + 1)%Z
  end.

End Js.

(** ** The dialogue parser *)

Record DialogueLine := mkLine {
  number : nat;
  character : string;
  dialogue : string
}.

Definition isSceneHeading (line : string) : bool := Js.re_sceneHeading line.

Definition isCharacterDescription (line : string) : bool :=
  Js.re_nameCommaDigits line || Js.re_nameSpaceParen line.

Definition isCharacterNameDirect (line : string) : bool :=
  let words := Js.split Js.SPACE line in
  if (1 <=? length words) && (length words <=? 4) then
    let allCaps :=
      forallb (fun word => Js.re_allUpper word
                           && (1 <? String.length word)
                           && (String.length word <=? 15)) words in
    let actionWords :=
      ["THE"; "AND"; "OR"; "BUT"; "WITH"; "FROM"; "INTO"; "UPON"; "UNDER"; "OVER"] in
    let notActionWord :=
      negb (existsb (fun word => existsb (String.eqb word) actionWords) words) in
    allCaps && notActionWord
  else false.

Definition isActionLine (line : string) : bool :=
  let actionWords :=
    ["sits"; "stands"; "walks"; "approaches"; "looks"; "turns"; "takes";
     "places"; "rushes"; "enjoy"; "typing"; "laptop"] in
  let hasActionWords :=
    existsb (fun word => Js.includes (Js.toLowerCase line) word) actionWords in
  let isNotCharacterName := negb (isCharacterNameDirect line) in
  hasActionWords && isNotCharacterName.

Definition isCharacterName (line : string) : bool :=
  if isSceneHeading line || isCharacterDescription line then false
  else isCharacterNameDirect line.

Definition isDialogue (line : string) : bool :=
  if isSceneHeading line || isCharacterDescription line || isCharacterNameDirect line
  then false
  else
    let lower := Js.toLowerCase line in
    let stageDirectionWords :=
      ["considers"; "eyes"; "light"; "up"; "places"; "sits"; "approaches";
       "looks"; "turns"; "takes"; "rushes"; "enjoy"; "typing"; "laptop";
       "fade"; "end"; "continues"; "moves"; "walks"; "stands"; "enters"; "exits"] in
    let isStageDirection :=
      (existsb (fun word => Js.includes lower word) stageDirectionWords
       && (Js.includes line "s" && Js.includes lower "s"))
      || Js.includes lower "this"
      || Js.includes lower "moment"
      || Js.includes lower "eyes"
      || Js.includes lower "light" in
    if isStageDirection then false
    else if Js.re_allUpperOrSpace line && (3 <? String.length line) then false
    else
      let dialogueWords :=
        ["I"; "you"; "the"; "a"; "an"; "and"; "or"; "but"; "thanks"; "hey";
         "hello"; "yes"; "no"; "well"; "okay"; "sure"; "really"; "what";
         "how"; "why"; "when"; "where"] in
      let hasDialogueWords :=
        existsb (fun word => Js.includes lower (Js.toLowerCase word)) dialogueWords in
      let notAllCaps :=
        negb (Js.re_allUpperOrSpace line) || (String.length line <? 10) in
      let hasDialoguePatterns :=
        Js.includes line "?" || Js.includes line "!" || Js.includes line "."
        || Js.includes lower "i " || Js.includes lower "you "
        || Js.includes lower "the " || Js.includes lower "a "
        || Js.includes lower "an " || Js.includes lower "and " in
      hasDialogueWords && notAllCaps && hasDialoguePatterns
      && (0 <? String.length line).

(** The variables of the loop of [parseDialogue]. *)
Record ParseState := mkParse {
  p_lines : list DialogueLine;
  p_characters : list string;
  p_lineNumber : nat;
  p_currentCharacter : string
}.

(** One iteration of the [for] loop, on the trimmed line [line]. *)
Definition parse_step (st : ParseState) (line : string) : ParseState :=
  if isSceneHeading line || isActionLine line || isCharacterDescription line then
    mkParse (p_lines st) (p_characters st) (p_lineNumber st) ""
  else if isCharacterName line then
    mkParse (p_lines st) (p_characters st) (p_lineNumber st) (Js.trim line)
  else if Js.truthy (p_currentCharacter st) && isDialogue line then
    mkParse (p_lines st ++ [mkLine (p_lineNumber st) (p_currentCharacter st) line])
            (Js.Set_add (p_characters st) (p_currentCharacter st))
            (p_lineNumber st + 1)
            (p_currentCharacter st)
  else st.

Definition parse_loop (st : ParseState) (textLines : list string) : ParseState :=
  fold_left parse_step textLines st.

(** [text.split('\n').map(line => line.trim()).filter(line => line.length > 0)] *)
Definition textLines_of (text : string) : list string :=
  List.filter (fun line => 0 <? String.length line)
              (List.map Js.trim (Js.split Js.LF text)).

Record ParseResult := mkResult {
  lines : list DialogueLine;
  characters : list string
}.

Definition parseDialogue (text fileName : string) : ParseResult :=
  let textLines := textLines_of text in
  let isFountain := Js.endsWith (Js.toLowerCase fileName) ".fountain" in
  let st := parse_loop (mkParse [] [] 1 "") textLines in
  mkResult (p_lines st) (p_characters st).


(** The three "skip" predicates tested first in the loop. *)
Definition isSkipped (line : string) : bool :=
  isSceneHeading line || isActionLine line || isCharacterDescription line.

(** The loop state after [currentCharacter = ''; continue]. *)
Definition cleared (st : ParseState) : ParseState :=
  mkParse (p_lines st) (p_characters st) (p_lineNumber st) "".


(** ** The state of the page *)

(** An encoded audio clip: its bytes. *)
Definition Blob := list N.

(** [new Blob(chunks)] *)
Definition new_Blob (chunks : list Blob) : Blob := concat chunks.

Definition blob_size (b : Blob) : nat := length b.

(** The recorder made by [startRecording].  Its [onstop] handler is a closure
    over [selectedEffect], the value of the voice-effect radio button when
    the recording started. *)
Record MediaRecorder := mkRecorder { selectedEffect : string }.

(** The speech recogniser, when the browser has one. *)
Record Recognition := mkRecognition { listening : bool }.

(** The callbacks the script hands to [setTimeout]. *)
Inductive Callback :=
| CbUpdateProductionInterface  (* advanceProductionLine, 500 ms *)
| CbAdvanceProductionLine      (* recognition.onresult, 1000 ms *)
| CbSpeechTimeout              (* recognition.onend, 30000 ms *)
| CbRestartRecognition         (* recognition.onend, 100 ms *)
| CbNextLine.                  (* stopRecording, 1000 ms *)

Record Timer := mkTimer { t_id : nat; t_delay : N; t_callback : Callback }.

(** The fields of [class AppState].  [characters] is [app_characters] here
    (the parse result has a field of that name); [audioContext] and
    [audioProcessor] hold Web Audio objects and are left out. *)
Record AppState := mkApp {
  scriptText : string;
  dialogueLines : list DialogueLine;
  app_characters : list string;
  recordCharacters : list string;
  speakCharacters : list string;
  audioRecordings : gmap string (gmap nat Blob);
  currentCharacter : option string;
  currentLineIndex : nat;
  isRecording : bool;
  mediaRecorder : option MediaRecorder;
  audioChunks : list Blob;
  recognition : option Recognition;
  isProductionMode : bool;
  productionLineIndex : nat;
  speechTimeout : option nat
}.

(** The part of the browser the handlers read and write: the callbacks
    registered with [setTimeout] and not yet run, the [Audio] elements that
    [playAudioBlob] created, the two production check boxes, the texts of
    the [statusText] and [statusMessage] elements and the section shown. *)
Record Page := mkPage {
  timers : list Timer;
  nextTimerId : nat;
  audios : list Blob;
  playRecordings : bool;
  liveSpeaking : bool;
  statusText : string;
  statusMessage : string;
  activeSection : string
}.

Record World := mkWorld { appState : AppState; page : Page }.

(** Assignments to single fields. *)

Definition with_dialogueLines (v : list DialogueLine) (a : AppState) : AppState :=
  mkApp (scriptText a) v (app_characters a) (recordCharacters a) (speakCharacters a) (audioRecordings a) (currentCharacter a) (currentLineIndex a) (isRecording a) (mediaRecorder a) (audioChunks a) (recognition a) (isProductionMode a) (productionLineIndex a) (speechTimeout a).



Definition with_audioRecordings (v : gmap string (gmap nat Blob)) (a : AppState) : AppState :=
  mkApp (scriptText a) (dialogueLines a) (app_characters a) (recordCharacters a) (speakCharacters a) v (currentCharacter a) (currentLineIndex a) (isRecording a) (mediaRecorder a) (audioChunks a) (recognition a) (isProductionMode a) (productionLineIndex a) (speechTimeout a).

Definition with_currentCharacter (v : option string) (a : AppState) : AppState :=
  mkApp (scriptText a) (dialogueLines a) (app_characters a) (recordCharacters a) (speakCharacters a) (audioRecordings a) v (currentLineIndex a) (isRecording a) (mediaRecorder a) (audioChunks a) (recognition a) (isProductionMode a) (productionLineIndex a) (speechTimeout a).

Definition with_currentLineIndex (v : nat) (a : AppState) : AppState :=
  mkApp (scriptText a) (dialogueLines a) (app_characters a) (recordCharacters a) (speakCharacters a) (audioRecordings a) (currentCharacter a) v (isRecording a) (mediaRecorder a) (audioChunks a) (recognition a) (isProductionMode a) (productionLineIndex a) (speechTimeout a).

Definition with_isRecording (v : bool) (a : AppState) : AppState :=
  mkApp (scriptText a) (dialogueLines a) (app_characters a) (recordCharacters a) (speakCharacters a) (audioRecordings a) (currentCharacter a) (currentLineIndex a) v (mediaRecorder a) (audioChunks a) (recognition a) (isProductionMode a) (productionLineIndex a) (speechTimeout a).

Definition with_mediaRecorder (v : option MediaRecorder) (a : AppState) : AppState :=
  mkApp (scriptText a) (dialogueLines a) (app_characters a) (recordCharacters a) (speakCharacters a) (audioRecordings a) (currentCharacter a) (currentLineIndex a) (isRecording a) v (audioChunks a) (recognition a) (isProductionMode a) (productionLineIndex a) (speechTimeout a).

Definition with_audioChunks (v : list Blob) (a : AppState) : AppState :=
  mkApp (scriptText a) (dialogueLines a) (app_characters a) (recordCharacters a) (speakCharacters a) (audioRecordings a) (currentCharacter a) (currentLineIndex a) (isRecording a) (mediaRecorder a) v (recognition a) (isProductionMode a) (productionLineIndex a) (speechTimeout a).

Definition with_recognition (v : option Recognition) (a : AppState) : AppState :=
  mkApp (scriptText a) (dialogueLines a) (app_characters a) (recordCharacters a) (speakCharacters a) (audioRecordings a) (currentCharacter a) (currentLineIndex a) (isRecording a) (mediaRecorder a) (audioChunks a) v (isProductionMode a) (productionLineIndex a) (speechTimeout a).

Definition with_isProductionMode (v : bool) (a : AppState) : AppState :=
  mkApp (scriptText a) (dialogueLines a) (app_characters a) (recordCharacters a) (speakCharacters a) (audioRecordings a) (currentCharacter a) (currentLineIndex a) (isRecording a) (mediaRecorder a) (audioChunks a) (recognition a) v (productionLineIndex a) (speechTimeout a).

Definition with_productionLineIndex (v : nat) (a : AppState) : AppState :=
  mkApp (scriptText a) (dialogueLines a) (app_characters a) (recordCharacters a) (speakCharacters a) (audioRecordings a) (currentCharacter a) (currentLineIndex a) (isRecording a) (mediaRecorder a) (audioChunks a) (recognition a) (isProductionMode a) v (speechTimeout a).

Definition with_speechTimeout (v : option nat) (a : AppState) : AppState :=
  mkApp (scriptText a) (dialogueLines a) (app_characters a) (recordCharacters a) (speakCharacters a) (audioRecordings a) (currentCharacter a) (currentLineIndex a) (isRecording a) (mediaRecorder a) (audioChunks a) (recognition a) (isProductionMode a) (productionLineIndex a) v.

Definition with_timers (v : list Timer) (p : Page) : Page :=
  mkPage v (nextTimerId p) (audios p) (playRecordings p) (liveSpeaking p) (statusText p) (statusMessage p) (activeSection p).

Definition with_audios (v : list Blob) (p : Page) : Page :=
  mkPage (timers p) (nextTimerId p) v (playRecordings p) (liveSpeaking p) (statusText p) (statusMessage p) (activeSection p).

Definition with_statusText (v : string) (p : Page) : Page :=
  mkPage (timers p) (nextTimerId p) (audios p) (playRecordings p) (liveSpeaking p) v (statusMessage p) (activeSection p).

Definition with_statusMessage (v : string) (p : Page) : Page :=
  mkPage (timers p) (nextTimerId p) (audios p) (playRecordings p) (liveSpeaking p) (statusText p) v (activeSection p).

Definition with_activeSection (v : string) (p : Page) : Page :=
  mkPage (timers p) (nextTimerId p) (audios p) (playRecordings p) (liveSpeaking p) (statusText p) (statusMessage p) v.

Definition upd_app (f : AppState -> AppState) (w : World) : World :=
  mkWorld (f (appState w)) (page w).

Definition upd_page (f : Page -> Page) (w : World) : World :=
  mkWorld (appState w) (f (page w)).

(** [new AppState()] *)
Definition new_AppState (rec : option Recognition) : AppState :=
  mkApp "" [] [] [] [] ∅ None 0 false None [] rec false 0 None.

(** *** Timers, status line, recogniser *)

(** [setTimeout(cb, delay)]: the callback is queued under a fresh id, which
    is returned. *)
Definition setTimeout (cb : Callback) (delay : N) (w : World) : nat * World :=
  let id := nextTimerId (page w) in
  (id, mkWorld (appState w)
         (mkPage (timers (page w) ++ [mkTimer id delay cb]) (S id)
                 (audios (page w)) (playRecordings (page w)) (liveSpeaking (page w))
                 (statusText (page w)) (statusMessage (page w))
                 (activeSection (page w)))).

(** [clearTimeout(id)] *)
Definition clearTimeout (id : nat) (w : World) : World :=
  upd_page (fun p => with_timers
    (List.filter (fun t => negb (t_id t =? id)) (timers p)) p) w.

(** [showStatusMessage(message, type)]; the timer that hides the message
    again after three seconds touches nothing else and is left out. *)
Definition showStatusMessage (message : string) (w : World) : World :=
  upd_page (with_statusMessage message) w.

(** [showSection(sectionId)] *)
Definition showSection (sectionId : string) (w : World) : World :=
  upd_page (with_activeSection sectionId) w.

Definition set_statusText (s : string) (w : World) : World :=
  upd_page (with_statusText s) w.

(** [if (appState.recognition) { appState.recognition.stop(); }] *)
Definition recognition_stop (w : World) : World :=
  match recognition (appState w) with
  | Some _ => upd_app (with_recognition (Some (mkRecognition false))) w
  | None => w
  end.

(** [if (appState.recognition && appState.recognition.state !== 'started')
    { try { appState.recognition.start(); } catch (error) { ... } }].
    A [SpeechRecognition] object has no [state] property, so the second
    test always passes; [start()] on a recogniser that is already listening
    throws, and the exception is swallowed. *)
Definition recognition_try_start (w : World) : World :=
  match recognition (appState w) with
  | Some _ => upd_app (with_recognition (Some (mkRecognition true))) w
  | None => w
  end.

(** [if (appState.speechTimeout) { clearTimeout(appState.speechTimeout);
    appState.speechTimeout = null; }].  Timer ids start at 1 in a browser, so
    a stored id is truthy. *)
Definition clear_speechTimeout (w : World) : World :=
  match speechTimeout (appState w) with
  | Some id => upd_app (with_speechTimeout None) (clearTimeout id w)
  | None => w
  end.

(** *** Production *)

(** [appState.dialogueLines[appState.productionLineIndex]] *)
Definition productionLine (w : World) : option DialogueLine :=
  nth_error (dialogueLines (appState w)) (productionLineIndex (appState w)).

(** [appState.speakCharacters.has(appState.dialogueLines[appState.productionLineIndex]?.character)] *)
Definition currentIsSpeak (w : World) : bool :=
  match productionLine w with
  | Some l => Js.Set_has (speakCharacters (appState w)) (character l)
  | None => false
  end.

Definition advanceProductionLine (w : World) : World :=
  let w := recognition_stop w in
  let w := upd_app (with_productionLineIndex (productionLineIndex (appState w) + 1)) w in
  snd (setTimeout CbUpdateProductionInterface 500%N w).

(** [playAudioBlob]: a new [Audio] element starts playing the clip.  Its
    [onended] and [onerror] handlers are [audio_onended] and [audio_onerror]
    below. *)
Definition playAudioBlob (audioBlob : Blob) (w : World) : World :=
  upd_page (fun p => with_audios (audios p ++ [audioBlob]) p) w.

(** [appState.audioRecordings.get(character)?.get(number)] *)
Definition recordingFor (w : World) (c : string) (n : nat) : option Blob :=
  match audioRecordings (appState w) !! c with
  | Some m => m !! n
  | None => None
  end.

Definition updateProductionInterface (w : World) : World :=
  if length (dialogueLines (appState w)) <=? productionLineIndex (appState w) then
    let w := upd_app (with_isProductionMode false) w in
    let w := recognition_stop w in
    let w := clear_speechTimeout w in
    showStatusMessage "Production completed! Script finished." w
  else
    match productionLine w with
    | None => w
    | Some currentLine =>
        if playRecordings (page w)
           && Js.Set_has (recordCharacters (appState w)) (character currentLine) then
          match recordingFor w (character currentLine) (number currentLine) with
          | Some audioBlob =>
              set_statusText "Playing recorded audio" (playAudioBlob audioBlob w)
          | None =>
              advanceProductionLine
                (set_statusText "No recording found for this line" w)
          end
        else if liveSpeaking (page w)
                && Js.Set_has (speakCharacters (appState w)) (character currentLine) then
          recognition_try_start (set_statusText "Waiting for live speech..." w)
        else
          advanceProductionLine (set_statusText "Skipping line" w)
    end.

Definition audio_onended (w : World) : World := advanceProductionLine w.
Definition audio_onerror (w : World) : World := advanceProductionLine w.

Definition startProduction (w : World) : World :=
  let w := upd_app (with_isProductionMode true) w in
  let w := upd_app (with_productionLineIndex 0) w in
  let w := updateProductionInterface w in
  showStatusMessage "Production started" w.

Definition pauseProduction (w : World) : World :=
  let w := upd_app (with_isProductionMode false) w in
  showStatusMessage "Production paused" w.

Definition stopProduction (w : World) : World :=
  let w := upd_app (with_isProductionMode false) w in
  let w := upd_app (with_productionLineIndex 0) w in
  let w := recognition_stop w in
  let w := clear_speechTimeout w in
  let w := updateProductionInterface w in
  showStatusMessage "Production stopped" w.

(** *** Exceptions

    A handler either returns or lets a [TypeError] escape (a property read
    on [undefined]); either way the page is left in the state reached. *)
Inductive Completion :=
| Normal (w : World)
| TypeError (w : World).

Definition world_of (c : Completion) : World :=
  match c with Normal w | TypeError w => w end.

Definition bind (c : Completion) (f : World -> Completion) : Completion :=
  match c with
  | Normal w => f w
  | TypeError w => TypeError w
  end.

(** *** Script upload and character selection *)



(** *** Recording *)

(** [appState.dialogueLines.filter(line => line.character ===
    appState.currentCharacter)]; no line has the character [null]. *)
Definition characterLines (w : World) : list DialogueLine :=
  match currentCharacter (appState w) with
  | Some c => List.filter (fun line => String.eqb (character line) c)
                          (dialogueLines (appState w))
  | None => []
  end.

(** [characterLines[appState.currentLineIndex]] *)
Definition currentLine (w : World) : option DialogueLine :=
  nth_error (characterLines w) (currentLineIndex (appState w)).

(** [updateRecordingInterface] only writes to the document, apart from the
    status message; reading [currentLine.number] throws when the index is
    past the character's lines. *)
Definition updateRecordingInterface (w : World) : Completion :=
  if length (characterLines w) =? 0 then
    Normal (showStatusMessage "No dialogue found for this character" w)
  else
    match currentLine w with
    | Some _ => Normal w
    | None => TypeError w
    end.

Definition startRecordingSession (w : World) : Completion :=
  match recordCharacters (appState w) with
  | [] => Normal (showStatusMessage "Please select at least one character to record" w)
  | first :: _ =>
      let w := upd_app (with_currentCharacter (Some first)) w in
      let w := upd_app (with_currentLineIndex 0) w in
      bind (updateRecordingInterface w) (fun w =>
      Normal (showSection "recording-section" w))
  end.

Definition finishRecordingSession (w : World) : World :=
  showSection "playback-section" (showStatusMessage "Recording session completed" w).

(** [recordCharacters.indexOf(appState.currentCharacter)] *)
Definition currentCharacterIndex (w : World) : Z :=
  match currentCharacter (appState w) with
  | Some c => Js.indexOf (recordCharacters (appState w)) c
  | None => (-1)%Z
  end.

Definition nextLine (w : World) : Completion :=
  if (Z.of_nat (currentLineIndex (appState w))
      <? Z.of_nat (length (characterLines w)) - 1)%Z then
    updateRecordingInterface
      (upd_app (with_currentLineIndex (currentLineIndex (appState w) + 1)) w)
  else
    let recordCharacters := recordCharacters (appState w) in
    let currentIndex := currentCharacterIndex w in
    if (currentIndex <? Z.of_nat (length recordCharacters) - 1)%Z then
      let w := upd_app (with_currentCharacter
                 (nth_error recordCharacters (Z.to_nat (currentIndex + 1)))) w in
      let w := upd_app (with_currentLineIndex 0) w in
      updateRecordingInterface w
    else
      Normal (finishRecordingSession w).

Definition skipLine (w : World) : Completion := nextLine w.

Definition previousLine (w : World) : Completion :=
  if 0 <? currentLineIndex (appState w) then
    updateRecordingInterface
      (upd_app (with_currentLineIndex (currentLineIndex (appState w) - 1)) w)
  else Normal w.

Definition rerecordLine (w : World) : Completion :=
  match currentCharacter (appState w) with
  | Some c =>
      match audioRecordings (appState w) !! c with
      | Some m =>
          match currentLine w with
          | Some l =>
              Normal (showStatusMessage "Ready to rerecord this line"
                (upd_app (with_audioRecordings
                   (<[c := delete (number l) m]> (audioRecordings (appState w)))) w))
          | None => TypeError w
          end
      | None => Normal (showStatusMessage "Ready to rerecord this line" w)
      end
  | None => Normal (showStatusMessage "Ready to rerecord this line" w)
  end.

Definition getEffectName (effect : string) : string :=
  if String.eqb effect "none" then "Natural"
  else if String.eqb effect "male" then "Male"
  else if String.eqb effect "female" then "Female"
  else if String.eqb effect "elderly-male" then "Elderly Male"
  else if String.eqb effect "elderly-female" then "Elderly Female"
  else if String.eqb effect "male-child" then "Male Child"
  else if String.eqb effect "female-child" then "Female Child"
  else "Unknown".

(** [startRecording], given whether [getUserMedia] granted a stream and the
    checked voice effect.  [applyVoiceEffect] only rewires the stream (and
    hands back the original one when that fails), so it leaves no trace
    here.  The unguarded [recognition.start()] throws when
    the recogniser is already listening; the [catch] then reports a
    microphone error although the recorder runs. *)
Definition startRecording (granted : bool) (effect : string) (w : World) : World :=
  if granted then
    let w := upd_app (with_mediaRecorder (Some (mkRecorder effect))) w in
    let w := upd_app (with_audioChunks []) w in
    let w := upd_app (with_isRecording true) w in
    match recognition (appState w) with
    | Some r =>
        if listening r then showStatusMessage "Error accessing microphone" w
        else showStatusMessage ("Recording with " +:+ getEffectName effect +:+ " effect...")
               (upd_app (with_recognition (Some (mkRecognition true))) w)
    | None =>
        showStatusMessage ("Recording with " +:+ getEffectName effect +:+ " effect...") w
    end
  else showStatusMessage "Error accessing microphone" w.

(** [mediaRecorder.ondataavailable] *)
Definition mediaRecorder_ondataavailable (data : Blob) (w : World) : World :=
  upd_app (fun a => with_audioChunks (audioChunks a ++ [data]) a) w.

(** [stopRecording]; [mediaRecorder.stop()] makes the browser deliver the
    recorder's [stop] event afterwards. *)
Definition stopRecording (w : World) : World :=
  match mediaRecorder (appState w) with
  | Some _ =>
      if isRecording (appState w) then
        let w := upd_app (with_isRecording false) w in
        let w := recognition_stop w in
        let w := showStatusMessage "Recording saved" w in
        snd (setTimeout CbNextLine 1000%N w)
      else w
  | None => w
  end.

(** The [onstop] handler is an [async] function with one [await].  What it
    computed before the [await] is kept in its frame; the statements after
    it run later, on whatever the state of the page is by then. *)
Record StopFrame := mkFrame {
  fr_audioBlob : Blob;
  fr_currentLine : option DialogueLine;
  fr_effect : string
}.

(** [onstop], up to the [await]. *)
Definition onstop_begin (mr : MediaRecorder) (w : World) : StopFrame :=
  mkFrame (new_Blob (audioChunks (appState w))) (currentLine w) (selectedEffect mr).

(** [applyPostProcessingEffects]: [None] when the promise is rejected.  The
    Web Audio pipeline (decode, render through the effect graph, encode as
    WAV) is the parameter [render], [None] when any step of it throws. *)
Definition applyPostProcessingEffects
    (render : Blob -> string -> option Blob) (audioBlob : Blob) (effect : string)
  : option Blob :=
  if blob_size audioBlob =? 0 then None else render audioBlob effect.

(** The value of [processedAudioBlob] after the [try]/[catch]. *)
Definition processedAudioBlob
    (render : Blob -> string -> option Blob) (fr : StopFrame) : Blob :=
  if negb (String.eqb (fr_effect fr) "none") then
    match applyPostProcessingEffects render (fr_audioBlob fr) (fr_effect fr) with
    | Some processed => processed
    | None => fr_audioBlob fr
    end
  else fr_audioBlob fr.

(** [appState.audioRecordings.get(appState.currentCharacter)
      .set(currentLine.number, processedAudioBlob)] *)
Definition onstop_store (fr : StopFrame) (clip : Blob) (w : World) : Completion :=
  match currentCharacter (appState w) with
  | Some c =>
      match audioRecordings (appState w) !! c, fr_currentLine fr with
      | Some m, Some l =>
          Normal (upd_app (with_audioRecordings
                    (<[c := <[number l := clip]> m]> (audioRecordings (appState w)))) w)
      | _, _ => TypeError w
      end
  | None => TypeError w
  end.

(** The whole handler, when no other handler runs while it awaits (always so
    for the effect ['none'], which does not await). *)
Definition mediaRecorder_onstop
    (render : Blob -> string -> option Blob) (mr : MediaRecorder) (w : World)
  : Completion :=
  let fr := onstop_begin mr w in
  onstop_store fr (processedAudioBlob render fr) w.

(** *** Speech recognition *)

Definition completionWords : list string :=
  ["done"; "finished"; "complete"; "next"; "advance"; "continue"].

Definition hasCompletionWord (result : string) : bool :=
  existsb (fun word => Js.includes result word) completionWords.

(** [s.split(' ').filter(word => word.length > 3)] *)
Definition longWords (s : string) : list string :=
  List.filter (fun word => 3 <? String.length word) (Js.split Js.SPACE s).

(** The test of [onresult] for speech that matches the line on the
    teleprompter. *)
Definition speechMatchesDialogue (currentLine : DialogueLine) (result : string) : bool :=
  let dialogueWords := longWords (Js.toLowerCase (dialogue currentLine)) in
  let spokenWords := longWords result in
  let matchingWords :=
    List.filter (fun word => existsb (String.eqb word) dialogueWords) spokenWords in
  let isVeryShortDialogue :=
    length (Js.split Js.SPACE (dialogue currentLine)) <=? 2 in
  (2 <=? length matchingWords)
  || ((1 <=? length matchingWords) && (length spokenWords <=? 3))
  || (isVeryShortDialogue && (0 <? String.length (Js.trim result))).

(** [recognition.onresult], on the transcript of the first alternative. *)
Definition recognition_onresult (transcript : string) (w : World) : World :=
  let result := Js.toLowerCase transcript in
  let w := clear_speechTimeout w in
  if isRecording (appState w) && hasCompletionWord result then
    stopRecording w
  else if isProductionMode (appState w) && hasCompletionWord result then
    advanceProductionLine w
  else if isProductionMode (appState w) then
    match productionLine w with
    | Some currentLine =>
        if Js.Set_has (speakCharacters (appState w)) (character currentLine) then
          if speechMatchesDialogue currentLine result then
            snd (setTimeout CbAdvanceProductionLine 1000%N w)
          else w
        else w
    | None => w
    end
  else w.

(** [recognition.onend] *)
Definition recognition_onend (w : World) : World :=
  if isProductionMode (appState w) && currentIsSpeak w then
    let w := match speechTimeout (appState w) with
             | Some id => clearTimeout id w
             | None => w
             end in
    let (id, w) := setTimeout CbSpeechTimeout 30000%N w in
    let w := upd_app (with_speechTimeout (Some id)) w in
    snd (setTimeout CbRestartRecognition 100%N w)
  else w.

(** The callback armed by [onend] for 30 seconds. *)
Definition speechTimeout_callback (w : World) : World :=
  if isProductionMode (appState w) && currentIsSpeak w then advanceProductionLine w
  else w.

(** The callback armed by [onend] for 100 ms. *)
Definition restartRecognition_callback (w : World) : World :=
  if isProductionMode (appState w) then recognition_try_start w else w.

(** *** Events *)

Definition run_callback (cb : Callback) (w : World) : World :=
  match cb with
  | CbUpdateProductionInterface => updateProductionInterface w
  | CbAdvanceProductionLine => advanceProductionLine w
  | CbSpeechTimeout => speechTimeout_callback w
  | CbRestartRecognition => restartRecognition_callback w
  | CbNextLine => world_of (nextLine w)
  end.

(** What the browser can deliver while a production runs. *)
Inductive Event :=
| Click_startProduction
| Click_pauseProduction
| Click_stopProduction
| TimerFires (id : nat)
| Audio_ended (k : nat)
| Audio_error (k : nat)
| Speech_result (transcript : string)
| Speech_end.

Definition remove_nth {A : Type} (k : nat) (l : list A) : list A :=
  firstn k l ++ skipn (S k) l.

(** A timer runs once: it leaves the queue when it fires.  An audio element
    reports its end (or an error) once. *)
Definition step (w : World) (e : Event) : World :=
  match e with
  | Click_startProduction => startProduction w
  | Click_pauseProduction => pauseProduction w
  | Click_stopProduction => stopProduction w
  | TimerFires id =>
      match List.find (fun t => t_id t =? id) (timers (page w)) with
      | Some t => run_callback (t_callback t) (clearTimeout id w)
      | None => w
      end
  | Audio_ended k =>
      match nth_error (audios (page w)) k with
      | Some _ => audio_onended (upd_page (fun p => with_audios (remove_nth k (audios p)) p) w)
      | None => w
      end
  | Audio_error k =>
      match nth_error (audios (page w)) k with
      | Some _ => audio_onerror (upd_page (fun p => with_audios (remove_nth k (audios p)) p) w)
      | None => w
      end
  | Speech_result transcript => recognition_onresult transcript w
  | Speech_end => recognition_onend w
  end.

Definition run (w : World) (events : list Event) : World :=
  fold_left step events w.


(** ** Notions used in the statements *)

(** The production index of a page. *)
Definition productionIndex (w : World) : nat := productionLineIndex (appState w).


(** The recogniser, if there is one, is not listening. *)
Definition notListening (w : World) : Prop :=
  forall r, recognition (appState w) = Some r -> listening r = false.

(** A page in production mode on a two-line script, for the examples: the
    record set, the live set, the stored clips and the two check boxes are
    the arguments. *)
Definition demoLines : list DialogueLine :=
  [mkLine 1 "SARAH" "Hello there, my friend."; mkLine 2 "JOHN" "I am fine. Thanks!"].

(** A script that parses to [demoLines]. *)
Definition demoText : string :=
  "INT. CAFE - DAY" +:+ String Js.LF
  ("SARAH" +:+ String Js.LF
  ("Hello there, my friend." +:+ String Js.LF
  ("JOHN" +:+ String Js.LF
   "I am fine. Thanks!"))).

Definition demoWorld (record speak : list string)
    (clips : gmap string (gmap nat Blob)) (playBox liveBox : bool) : World :=
  mkWorld
    (mkApp "" demoLines ["SARAH"; "JOHN"] record speak clips None 0 false None []
           (Some (mkRecognition false)) true 0 None)
    (mkPage [] 1 [] playBox liveBox "" "" "playback-section").

(** One stored clip, for the examples. *)
Definition demoClip : Blob := [82%N; 73%N; 70%N; 70%N].


(** "On every line of a live character the recogniser is started and the
    index stays on the line." *)
Definition listens_on_every_live_line (w : World) : Prop :=
  forall l,
    productionLine w = Some l ->
    Js.Set_has (speakCharacters (appState w)) (character l) = true ->
    recognition (appState (updateProductionInterface w)) = Some (mkRecognition true)
    /\ productionIndex (updateProductionInterface w) = productionIndex w.

(** "Along this run the index moves only if some transcript held a
    completion word or the 30-second callback fired." *)
Definition advance_needs_keyword_or_timeout (w : World) (events : list Event) : Prop :=
  productionIndex (run w events) <> productionIndex w ->
  (exists t, In (Speech_result t) events
             /\ hasCompletionWord (Js.toLowerCase t) = true)
  \/ (exists pre id post tm,
        events = pre ++ TimerFires id :: post
        /\ List.find (fun t => t_id t =? id) (timers (page (run w pre))) = Some tm
        /\ t_callback tm = CbSpeechTimeout).

(** The lines of character [c], in script order. *)
Definition linesOf (dialogueLines : list DialogueLine) (c : string) : list DialogueLine :=
  List.filter (fun line => String.eqb (character line) c) dialogueLines.





(** The page of the examples when the recording session for JOHN and SARAH
    has started, a recording with the effect [effect] runs and one chunk of
    data has arrived. *)
Definition demoRecording (effect : string) : World :=
  mediaRecorder_ondataavailable demoClip
    (startRecording true effect
       (world_of (startRecordingSession
          (demoWorld ["JOHN"; "SARAH"] [] {["JOHN" := ∅; "SARAH" := ∅]} true true)))).

(** A Web Audio pipeline that always fails, and one that doubles the clip. *)
Definition renderFails (b : Blob) (effect : string) : option Blob := None.

(** A production on [demoLines] just started: SARAH is played from her clip,
    JOHN is spoken live. *)
Definition demoProduction : World :=
  startProduction
    (demoWorld ["SARAH"] ["JOHN"] {["SARAH" := {[1 := demoClip]}]} true true).


(** The page before the recording session of the examples. *)
Definition demoSelection : World :=
  demoWorld ["JOHN"; "SARAH"] [] {["JOHN" := ∅; "SARAH" := ∅]} true true.

(** ** Notions used in further statements *)

(** What holds of the loop state once the lines [seen] have been read:
    the texts of the records are a subsequence of [seen]; each record has
    the text of a dialogue-looking line and the (trimmed, non-empty) name of
    a character-name line; and the pending character, when set, is such a
    name. *)
Definition fromNameLine (seen : list string) (c : string) : Prop :=
  exists nameLine,
    In nameLine seen /\ isCharacterName nameLine = true
    /\ c = Js.trim nameLine /\ c <> "".

Definition provenance (seen : list string) (st : ParseState) : Prop :=
  map dialogue (p_lines st) `sublist_of` seen
  /\ (forall r, In r (p_lines st) ->
        isDialogue (dialogue r) = true /\ fromNameLine seen (character r))
  /\ (p_currentCharacter st = "" \/ fromNameLine seen (p_currentCharacter st)).


(** *** The recording session as a run of events *)

(** The three navigation buttons. *)
Inductive NavEvent := Nav_next | Nav_previous | Nav_skip.

Definition nav (w : World) (e : NavEvent) : Completion :=
  match e with
  | Nav_next => nextLine w
  | Nav_previous => previousLine w
  | Nav_skip => skipLine w
  end.

(** What happens in the recording section: a navigation button (or the
    [nextLine] callback that [stopRecording] queued), "Rerecord", the start
    of a recording, a chunk of data, the stop of a recording, and the
    recorder's [stop] event, whose handler is taken here to run with no
    other handler in between. *)
Inductive SessionEvent :=
| S_nav (e : NavEvent)
| S_rerecord
| S_startRecording (granted : bool) (effect : string)
| S_dataavailable (data : Blob)
| S_stopRecording
| S_recorderStopped.

Definition sessionStep (render : Blob -> string -> option Blob)
    (w : World) (e : SessionEvent) : Completion :=
  match e with
  | S_nav e => nav w e
  | S_rerecord => rerecordLine w
  | S_startRecording granted effect => Normal (startRecording granted effect w)
  | S_dataavailable data => Normal (mediaRecorder_ondataavailable data w)
  | S_stopRecording => Normal (stopRecording w)
  | S_recorderStopped =>
      match mediaRecorder (appState w) with
      | Some mr => mediaRecorder_onstop render mr w
      | None => Normal w
      end
  end.

(** A run stops at the first handler that lets an exception escape. *)
Fixpoint sessionRun (render : Blob -> string -> option Blob)
    (w : World) (events : list SessionEvent) : Completion :=
  match events with
  | [] => Normal w
  | e :: es => bind (sessionStep render w e) (fun w' => sessionRun render w' es)
  end.

(** The session is on a line: the current character is a record character
    with its map of clips, and the index is within that character's lines. *)
Definition onALine (w : World) : Prop :=
  exists c,
    currentCharacter (appState w) = Some c
    /\ In c (recordCharacters (appState w))
    /\ currentLineIndex (appState w)
       < length (linesOf (dialogueLines (appState w)) c).

(** Every record character has a map of clips and at least one line. *)
Definition recordCharactersReady (w : World) : Prop :=
  forall c, In c (recordCharacters (appState w)) ->
            is_Some (audioRecordings (appState w) !! c)
            /\ linesOf (dialogueLines (appState w)) c <> [].


(** The chunks delivered to [ondataavailable], in order. *)
Definition deliver (w : World) (chunks : list Blob) : World :=
  fold_left (fun w data => mediaRecorder_ondataavailable data w) chunks w.

(** *** Productions that run by themselves *)

(** [updateProductionInterface] passes the line at once: it is neither
    played (no clip, or not a record character, or the box unchecked) nor
    waited on for speech. *)
Definition passedAtOnce (w : World) (l : DialogueLine) : bool :=
  if playRecordings (page w)
     && Js.Set_has (recordCharacters (appState w)) (character l)
  then match recordingFor w (character l) (number l) with
       | Some _ => false
       | None => true
       end
  else negb (liveSpeaking (page w)
             && Js.Set_has (speakCharacters (appState w)) (character l)).

(** The oldest pending timer fires. *)
Definition fireNext (w : World) : World :=
  match timers (page w) with
  | t :: _ => step w (TimerFires (t_id t))
  | [] => w
  end.

Fixpoint fireMany (n : nat) (w : World) : World :=
  match n with
  | 0 => w
  | S n' => fireMany n' (fireNext w)
  end.

(** What production reads but never writes. *)
Definition sameSetting (w w' : World) : Prop :=
  dialogueLines (appState w') = dialogueLines (appState w)
  /\ recordCharacters (appState w') = recordCharacters (appState w)
  /\ speakCharacters (appState w') = speakCharacters (appState w)
  /\ audioRecordings (appState w') = audioRecordings (appState w)
  /\ playRecordings (page w') = playRecordings (page w)
  /\ liveSpeaking (page w') = liveSpeaking (page w).

(** *** The pending timers *)

Definition isSpeechTimeout (t : Timer) : bool :=
  match t_callback t with
  | CbSpeechTimeout => true
  | _ => false
  end.

(** Timer ids are distinct and below the next id to be given out, and a
    pending speech timeout is the one [appState.speechTimeout] holds. *)
Definition timersOk (w : World) : Prop :=
  List.NoDup (map t_id (timers (page w)))
  /\ (forall t, In t (timers (page w)) -> t_id t < nextTimerId (page w))
  /\ (forall t, In t (timers (page w)) -> isSpeechTimeout t = true ->
        speechTimeout (appState w) = Some (t_id t)).

(** *** Script upload *)

(** [isSupportedFile(file)], on the name of the file. *)
Definition isSupportedFile (name : string) : bool :=
  let supportedTypes := [".txt"; ".fountain"] in
  let fileName := Js.toLowerCase name in
  existsb (fun type => Js.endsWith fileName type) supportedTypes.

(** *** Inputs of the examples *)

(** A script in the "NAME: dialogue" form. *)
Definition colonText : string :=
  "SARAH: Hello there." +:+ String Js.LF "JOHN: I am fine.".

(** A run of the recording session of the examples. *)
Definition demoSession : list SessionEvent :=
  [S_startRecording true "none"; S_dataavailable demoClip; S_stopRecording;
   S_recorderStopped; S_nav Nav_next; S_rerecord; S_nav Nav_previous;
   S_nav Nav_skip; S_nav Nav_next].


(** Clips of the lines 2 and 3. *)
Definition demoClips : gmap nat Blob := {[2 := demoClip; 3 := demoClip]}.

(** A page on a script with three lines of one character, on its second
    line. *)
Definition demoMonologue : World :=
  mkWorld
    (mkApp "" [mkLine 1 "SARAH" "Hello."; mkLine 2 "SARAH" "How are you?";
               mkLine 3 "SARAH" "Well, goodbye."]
           ["SARAH"] ["SARAH"] [] {["SARAH" := demoClips]}
           (Some "SARAH") 1 false None [] None false 0 None)
    (mkPage [] 1 [] true true "" "" "recording-section").

(** ** The WAV writer *)

From Stdlib Require QArith.

Module Wav.

Import QArith.
Local Open Scope nat_scope.

(** An element of a [Float32Array].  A finite one is a rational; clamped to
    [-1, 1] and multiplied by 0x7FFF it is still exact in double
    precision, so rational arithmetic gives what the script computes. *)
Inductive Sample :=
| Finite (q : Q)
| NaN
| PosInfinity
| NegInfinity.

(** An [AudioBuffer]: [frames] is its [length], [getChannelData channel i]
    is [getChannelData(channel)[i]].  The sample rate is taken to be a whole
    number of hertz. *)
Record AudioBuffer := mkBuffer {
  numberOfChannels : nat;
  frames : nat;
  sampleRate : Z;
  getChannelData : nat -> nat -> Sample
}.

(** [Math.max(-1, Math.min(1, s)) * 0x7FFF], then the conversion [setInt16]
    applies to its argument: truncation towards zero, [NaN] to 0. *)
Definition clamp (q : Q) : Q :=
  if Qle_bool 1%Q q then 1%Q else if Qle_bool q (-1)%Q then (-1)%Q else q.

Definition truncate (q : Q) : Z := Z.quot (Qnum q) (Zpos (Qden q)).

Definition sample16 (s : Sample) : Z :=
  match s with
  | Finite q => truncate (clamp q * 32767)%Q
  | NaN => 0%Z
  | PosInfinity => 32767%Z
  | NegInfinity => (-32767)%Z
  end.

(** The bytes of the low [8 * n] bits of [v], least significant first. *)
Fixpoint littleEndian (n : nat) (v : Z) : list Z :=
  match n with
  | 0 => []
  | S n' => (v mod 256)%Z :: littleEndian n' (v / 256)%Z
  end.

(** A [DataView] on an [ArrayBuffer] is the list of its bytes.  A store
    past the end throws a [RangeError] ([None]) and stores nothing. *)
Definition store (offset : nat) (bytes : list Z) (view : list Z) : option (list Z) :=
  if offset + length bytes <=? length view then
    Some (firstn offset view ++ bytes ++ skipn (offset + length bytes) view)
  else None.

Definition setUint8 (offset : nat) (v : Z) := store offset (littleEndian 1 v).
(** [view.setUint16(offset, v, true)] *)
Definition setUint16 (offset : nat) (v : Z) := store offset (littleEndian 2 v).
(** [view.setInt16(offset, v, true)]: the same bytes, two's complement. *)
Definition setInt16 (offset : nat) (v : Z) := store offset (littleEndian 2 v).
(** [view.setUint32(offset, v, true)] *)
Definition setUint32 (offset : nat) (v : Z) := store offset (littleEndian 4 v).

(** [writeString(offset, string)]: one [setUint8] per character. *)
Fixpoint writeString (offset : nat) (s : string) (view : list Z) : option (list Z) :=
  match s with
  | EmptyString => Some view
  | String c s' =>
      view' ← setUint8 offset (Z.of_nat (nat_of_ascii c)) view;
      writeString (offset + 1) s' view'
  end.

(** The inner loop: the channels of frame [i], from [offset] on. *)
Definition writeFrame (ab : AudioBuffer) (i : nat)
    (st : nat * list Z) : option (nat * list Z) :=
  fold_left
    (fun acc channel =>
       '(offset, view) ← acc;
       view' ← setInt16 offset (sample16 (getChannelData ab channel i)) view;
       Some (offset + 2, view'))
    (seq 0 (numberOfChannels ab)) (Some st).

(** The outer loop. *)
Definition writeSamples (ab : AudioBuffer) (st : nat * list Z) : option (nat * list Z) :=
  fold_left (fun acc i => st' ← acc; writeFrame ab i st')
            (seq 0 (frames ab)) (Some st).

(** [audioBufferToBlob]: the bytes of the blob, [None] if a store throws. *)
Definition audioBufferToBlob (ab : AudioBuffer) : option (list Z) :=
  let numberOfChannels := numberOfChannels ab in
  let length := frames ab * numberOfChannels * 2 in
  let view := repeat 0%Z (44 + length) in
  view ← writeString 0 "RIFF" view;
  view ← setUint32 4 (36 + Z.of_nat length)%Z view;
  view ← writeString 8 "WAVE" view;
  view ← writeString 12 "fmt " view;
  view ← setUint32 16 16%Z view;
  view ← setUint16 20 1%Z view;
  view ← setUint16 22 (Z.of_nat numberOfChannels) view;
  view ← setUint32 24 (sampleRate ab) view;
  view ← setUint32 28 (sampleRate ab * Z.of_nat numberOfChannels * 2)%Z view;
  view ← setUint16 32 (Z.of_nat numberOfChannels * 2)%Z view;
  view ← setUint16 34 16%Z view;
  view ← writeString 36 "data" view;
  view ← setUint32 40 (Z.of_nat length) view;
  '(_, view) ← writeSamples ab (44, view);
  Some view.

(** Reading back, as a WAV reader does: [getUint16], [getInt16] and
    [getUint32] with the little-endian flag. *)
Definition getUint (n : nat) (offset : nat) (view : list Z) : Z :=
  fold_right (fun b acc => (b + 256 * acc)%Z) 0%Z (firstn n (skipn offset view)).

Definition getInt16 (offset : nat) (view : list Z) : Z :=
  let u := getUint 2 offset view in
  if (u <? 32768)%Z then u else (u - 65536)%Z.

(** The characters at [offset .. offset + 3]. *)
Definition getTag (offset : nat) (view : list Z) : list Z :=
  firstn 4 (skipn offset view).

Definition tag (s : string) : list Z :=
  map (fun c => Z.of_nat (nat_of_ascii c)) (list_ascii_of_string s).

(** The 44 bytes of the header and the bytes of the samples, frame by frame
    and channel by channel. *)
Definition header (ab : AudioBuffer) : list Z :=
  let length := Z.of_nat (frames ab * numberOfChannels ab * 2) in
  tag "RIFF" ++ littleEndian 4 (36 + length)%Z ++ tag "WAVE" ++ tag "fmt "
  ++ littleEndian 4 16%Z ++ littleEndian 2 1%Z
  ++ littleEndian 2 (Z.of_nat (numberOfChannels ab))
  ++ littleEndian 4 (sampleRate ab)
  ++ littleEndian 4 (sampleRate ab * Z.of_nat (numberOfChannels ab) * 2)%Z
  ++ littleEndian 2 (Z.of_nat (numberOfChannels ab) * 2)%Z
  ++ littleEndian 2 16%Z ++ tag "data" ++ littleEndian 4 length.

Definition frameBytes (ab : AudioBuffer) (i : nat) : list Z :=
  flat_map (fun channel => littleEndian 2 (sample16 (getChannelData ab channel i)))
           (seq 0 (numberOfChannels ab)).

Definition sampleBytes (ab : AudioBuffer) : list Z :=
  flat_map (frameBytes ab) (seq 0 (frames ab)).

End Wav.

(** Two frames of stereo: a sample beyond 1, one below -1, a half and a
    negative quarter. *)
Definition demoBuffer : Wav.AudioBuffer :=
  Wav.mkBuffer 2 2 44100
    (fun channel i =>
       match channel, i with
       | 0, 0 => Wav.Finite (QArith_base.Qmake 3 2)
       | 1, 0 => Wav.Finite (QArith_base.Qmake (-2) 1)
       | 0, _ => Wav.Finite (QArith_base.Qmake 1 2)
       | _, _ => Wav.Finite (QArith_base.Qmake (-1) 4)
       end).
(** ** Facts about the parser *)

Section SetFacts.

Lemma Set_has_In (s : list string) (x : string) :
  Js.Set_has s x = true <-> In x s.
Proof.
  unfold Js.Set_has. rewrite existsb_exists. split.
  - intros [y [Hin Heq]]. apply String.eqb_eq in Heq. now subst.
  - intros Hin. exists x. split; [assumption | apply String.eqb_refl].
Qed.

Lemma Set_add_In (s : list string) (x y : string) :
  In y (Js.Set_add s x) <-> In y s \/ y = x.
Proof.
  unfold Js.Set_add. destruct (Js.Set_has s x) eqn:Hhas.
  - apply Set_has_In in Hhas. split; [tauto | intros [H | ->]; assumption].
  - rewrite in_app_iff. simpl. split; intros [H | H]; auto.
    + destruct H as [H | []]; auto.
Qed.

Lemma Set_add_NoDup (s : list string) (x : string) :
  List.NoDup s -> List.NoDup (Js.Set_add s x).
Proof.
  intros Hnd. unfold Js.Set_add. destruct (Js.Set_has s x) eqn:Hhas; [assumption |].
  assert (Hnot : ~ In x s).
  { intros Hin. apply Set_has_In in Hin. congruence. }
  clear Hhas. induction s as [| a s IH]; simpl.
  - constructor; [intros [] | constructor].
  - inversion Hnd; subst. constructor.
    + rewrite in_app_iff. simpl. intros [H | [H | []]]; [tauto |].
      subst. apply Hnot. now left.
    + apply IH; [assumption |]. intros Hin. apply Hnot. now right.
Qed.

End SetFacts.

(** Induction over the loop: a property kept by every iteration holds at the
    end. *)
Lemma parse_loop_ind (P : ParseState -> Prop) :
  (forall st line, P st -> P (parse_step st line)) ->
  forall textLines st, P st -> P (parse_loop st textLines).
Proof.
  intros Hstep textLines. unfold parse_loop.
  induction textLines as [| l ls IH]; simpl; intros st Hst; [assumption |].
  apply IH, Hstep, Hst.
Qed.


(** What one iteration does, by the branch taken. *)
Lemma parse_step_cases (st : ParseState) (line : string) :
  (isSkipped line = true /\ parse_step st line = cleared st)
  \/ (isSkipped line = false /\ isCharacterName line = true
      /\ parse_step st line
         = mkParse (p_lines st) (p_characters st) (p_lineNumber st) (Js.trim line))
  \/ (isSkipped line = false /\ isCharacterName line = false
      /\ Js.truthy (p_currentCharacter st) = true /\ isDialogue line = true
      /\ parse_step st line
         = mkParse (p_lines st ++ [mkLine (p_lineNumber st) (p_currentCharacter st) line])
                   (Js.Set_add (p_characters st) (p_currentCharacter st))
                   (p_lineNumber st + 1) (p_currentCharacter st))
  \/ (isSkipped line = false /\ isCharacterName line = false
      /\ Js.truthy (p_currentCharacter st) && isDialogue line = false
      /\ parse_step st line = st).
Proof.
  unfold parse_step, cleared, isSkipped.
  destruct (isSceneHeading line || isActionLine line || isCharacterDescription line);
    [left; split; reflexivity |].
  destruct (isCharacterName line); [right; left; repeat split |].
  destruct (Js.truthy (p_currentCharacter st)) eqn:Ht, (isDialogue line) eqn:Hd; simpl.
  - right; right; left. repeat split.
  - right; right; right. repeat split.
  - right; right; right. repeat split.
  - right; right; right. repeat split.
Qed.

Lemma truthy_nonempty (s : string) : Js.truthy s = true <-> s <> "".
Proof.
  unfold Js.truthy, Js.nonEmpty. destruct s; simpl; split; congruence.
Qed.

(** *** Line numbers *)

Definition numbered (st : ParseState) : Prop :=
  map number (p_lines st) = seq 1 (length (p_lines st))
  /\ p_lineNumber st = S (length (p_lines st)).

Lemma parse_step_numbered (st : ParseState) (line : string) :
  numbered st -> numbered (parse_step st line).
Proof.
  intros [Hmap Hnum].
  destruct (parse_step_cases st line)
    as [[_ ->] | [(_ & _ & ->) | [(_ & _ & _ & _ & ->) | (_ & _ & _ & ->)]]];
    unfold numbered, cleared; simpl; auto.
  rewrite map_app, length_app, Hmap. simpl.
  rewrite Nat.add_1_r, seq_S, Hnum. split; [reflexivity | lia].
Qed.

Lemma parseDialogue_numbered (text fileName : string) :
  numbered (parse_loop (mkParse [] [] 1 "") (textLines_of text)).
Proof.
  apply parse_loop_ind; [apply parse_step_numbered |].
  split; reflexivity.
Qed.

(** C9: the [number] fields of the records returned by [parseDialogue] are
    1, 2, ..., n in output order: the record at (0-based) position [i] of the
    result carries the number [i + 1], whatever line of the text it came
    from. *)
Theorem parseDialogue_numbers_consecutive (text fileName : string) :
  map number (lines (parseDialogue text fileName))
  = seq 1 (length (lines (parseDialogue text fileName)))
  /\ (forall (i : nat) (r : DialogueLine),
        nth_error (lines (parseDialogue text fileName)) i = Some r ->
        number r = i + 1).
Proof.
  destruct (parseDialogue_numbered text fileName) as [Hmap _].
  unfold parseDialogue; simpl. split; [exact Hmap |].
  intros i r Hnth.
  assert (Hi : i < length (p_lines (parse_loop (mkParse [] [] 1 "") (textLines_of text)))).
  { apply nth_error_Some. congruence. }
  apply (map_nth_error number) in Hnth. rewrite Hmap in Hnth.
  rewrite nth_error_nth' with (d := 0) in Hnth by (rewrite length_seq; exact Hi).
  rewrite seq_nth in Hnth by exact Hi. injection Hnth. lia.
Qed.

(** *** The character set *)

Definition characters_exact (st : ParseState) : Prop :=
  (forall c, In c (p_characters st)
             <-> exists l, In l (p_lines st) /\ character l = c)
  /\ List.NoDup (p_characters st).

Lemma parse_step_characters_exact (st : ParseState) (line : string) :
  characters_exact st -> characters_exact (parse_step st line).
Proof.
  intros [Hiff Hnd].
  destruct (parse_step_cases st line)
    as [[_ ->] | [(_ & _ & ->) | [(_ & _ & _ & _ & ->) | (_ & _ & _ & ->)]]];
    unfold characters_exact, cleared; simpl; auto.
  split; [| apply Set_add_NoDup, Hnd].
  intros c. rewrite Set_add_In, Hiff. split.
  - intros [[l [Hin Hc]] | ->].
    + exists l. split; [apply in_or_app; now left | assumption].
    + eexists. split; [apply in_or_app; right; left; reflexivity | reflexivity].
  - intros [l [Hin Hc]]. apply in_app_or in Hin. destruct Hin as [Hin | [<- | []]].
    + left. now exists l.
    + right. simpl in Hc. now symmetry.
Qed.

(** C5: [parseDialogue] returns records with a number, a character and a
    text, and a character set that is exactly the set of characters of the
    returned records: a name is in the set if and only if some record carries
    it, and the set holds every name once. *)
Theorem parseDialogue_characters_exact (text fileName : string) :
  (forall c, In c (characters (parseDialogue text fileName))
             <-> exists l, In l (lines (parseDialogue text fileName))
                           /\ character l = c)
  /\ List.NoDup (characters (parseDialogue text fileName)).
Proof.
  unfold parseDialogue; simpl.
  apply (parse_loop_ind characters_exact).
  - apply parse_step_characters_exact.
  - split; [| constructor]. intros c; simpl. split; [intros [] | intros [l [[] _]]].
Qed.

(** *** Classification of the lines *)

Lemma cleared_idem (st : ParseState) : cleared (cleared st) = cleared st.
Proof. reflexivity. Qed.

Lemma parse_step_cleared_no_name (st : ParseState) (line : string) :
  isCharacterName line = false ->
  parse_step (cleared st) line = cleared st.
Proof.
  intros Hname.
  destruct (parse_step_cases (cleared st) line)
    as [[_ ->] | [(_ & Hn & _) | [(_ & _ & Ht & _) | (_ & _ & _ & ->)]]];
    [reflexivity | congruence | discriminate Ht | reflexivity].
Qed.

Lemma parse_loop_cleared_no_name (st : ParseState) (mid : list string) :
  Forall (fun l => isCharacterName l = false) mid ->
  parse_loop (cleared st) mid = cleared st.
Proof.
  induction 1 as [| l ls Hl _ IH]; [reflexivity |].
  unfold parse_loop in *. simpl. rewrite parse_step_cleared_no_name by exact Hl.
  exact IH.
Qed.


Lemma upper_not_whiteSpace (c : ascii) :
  Js.isUpperAZ c = true -> Js.isWhiteSpace c = false.
Proof.
  unfold Js.isUpperAZ, Js.isWhiteSpace. intros H.
  apply andb_true_iff in H. destruct H as [H1 H2].
  apply Nat.leb_le in H1. apply Nat.leb_le in H2.
  repeat (apply orb_false_iff; split).
  - apply andb_false_iff. right. apply Nat.leb_gt. lia.
  - apply Nat.eqb_neq. lia.
  - apply Nat.eqb_neq. lia.
Qed.

(** A character-name line begins with a capital letter. *)
Lemma characterName_head_upper (line : string) :
  isCharacterNameDirect line = true -> Js.headIs Js.isUpperAZ line = true.
Proof.
  unfold isCharacterNameDirect.
  destruct ((1 <=? length (Js.split Js.SPACE line))
            && (length (Js.split Js.SPACE line) <=? 4)); [| discriminate].
  intros H. apply andb_true_iff in H. destruct H as [Hall _].
  destruct line as [| a s]; [simpl in Hall; discriminate |].
  simpl in Hall. simpl. destruct (Ascii.eqb a Js.SPACE).
  - simpl in Hall. discriminate.
  - destruct (Js.split Js.SPACE s) as [| w ws]; simpl in Hall;
      unfold Js.re_allUpper in Hall; simpl in Hall;
      destruct (Js.isUpperAZ a); simpl in *; congruence.
Qed.

Lemma trimEnd_head (a : ascii) (s : string) :
  Js.isWhiteSpace a = false -> Js.trimEnd (String a s) <> "".
Proof.
  intros Ha. simpl. destruct (Js.trimEnd s); [rewrite Ha |]; discriminate.
Qed.

(** The pending character set by a character-name line is not empty. *)
Lemma characterName_trim_nonempty (line : string) :
  isCharacterName line = true -> Js.trim line <> "".
Proof.
  intros H. unfold isCharacterName in H.
  destruct (isSceneHeading line || isCharacterDescription line); [discriminate |].
  apply characterName_head_upper in H.
  destruct line as [| a s]; [discriminate |]. simpl in H.
  apply upper_not_whiteSpace in H.
  unfold Js.trim. simpl. rewrite H. now apply trimEnd_head.
Qed.





(** ** Facts about the production walk *)

Section IndexFrame.

Lemma productionLine_in_range (w : World) (l : DialogueLine) :
  productionLine w = Some l ->
  (length (dialogueLines (appState w)) <=? productionLineIndex (appState w)) = false.
Proof.
  unfold productionLine. intros H. apply Nat.leb_gt, nth_error_Some. congruence.
Qed.

Lemma index_recognition_stop (w : World) :
  productionIndex (recognition_stop w) = productionIndex w.
Proof. unfold recognition_stop. destruct (recognition (appState w)); reflexivity. Qed.

Lemma index_recognition_try_start (w : World) :
  productionIndex (recognition_try_start w) = productionIndex w.
Proof. unfold recognition_try_start. destruct (recognition (appState w)); reflexivity. Qed.

Lemma index_clear_speechTimeout (w : World) :
  productionIndex (clear_speechTimeout w) = productionIndex w.
Proof. unfold clear_speechTimeout. destruct (speechTimeout (appState w)); reflexivity. Qed.

Lemma index_advanceProductionLine (w : World) :
  productionIndex (advanceProductionLine w) = productionIndex w + 1.
Proof.
  unfold advanceProductionLine, productionIndex. simpl.
  fold (productionIndex (recognition_stop w)). now rewrite index_recognition_stop.
Qed.

Lemma index_updateProductionInterface (w : World) :
  productionIndex (updateProductionInterface w) = productionIndex w
  \/ productionIndex (updateProductionInterface w) = productionIndex w + 1.
Proof.
  unfold updateProductionInterface.
  destruct (length (dialogueLines (appState w)) <=? productionLineIndex (appState w)).
  - left. unfold showStatusMessage, productionIndex. simpl.
    fold (productionIndex (clear_speechTimeout
            (recognition_stop (upd_app (with_isProductionMode false) w)))).
    now rewrite index_clear_speechTimeout, index_recognition_stop.
  - destruct (productionLine w) as [l |]; [| now left].
    destruct (playRecordings (page w)
              && Js.Set_has (recordCharacters (appState w)) (character l)).
    + destruct (recordingFor w (character l) (number l)).
      * now left.
      * right. now rewrite index_advanceProductionLine.
    + destruct (liveSpeaking (page w)
                && Js.Set_has (speakCharacters (appState w)) (character l)).
      * left. now rewrite index_recognition_try_start.
      * right. now rewrite index_advanceProductionLine.
Qed.

Lemma index_stopRecording (w : World) :
  productionIndex (stopRecording w) = productionIndex w.
Proof.
  unfold stopRecording. destruct (mediaRecorder (appState w)); [| reflexivity].
  destruct (isRecording (appState w)); [| reflexivity].
  unfold productionIndex. simpl.
  fold (productionIndex (recognition_stop (upd_app (with_isRecording false) w))).
  now rewrite index_recognition_stop.
Qed.







End IndexFrame.

Section Walk.




Lemma timers_clearTimeout_incl (id : nat) (w : World) (t : Timer) :
  In t (timers (page (clearTimeout id w))) -> In t (timers (page w)).
Proof. simpl. intros H. apply filter_In in H. tauto. Qed.

Lemma updateProductionInterface_at_end (w : World) :
  length (dialogueLines (appState w)) <= productionIndex w ->
  isProductionMode (appState (updateProductionInterface w)) = false
  /\ productionIndex (updateProductionInterface w) = productionIndex w
  /\ (forall t, In t (timers (page (updateProductionInterface w)))
                -> In t (timers (page w)))
  /\ audios (page (updateProductionInterface w)) = audios (page w)
  /\ notListening (updateProductionInterface w).
Proof.
  intros Hend. unfold updateProductionInterface.
  apply Nat.leb_le in Hend. unfold productionIndex in Hend. rewrite Hend.
  unfold notListening, productionIndex, showStatusMessage, clear_speechTimeout,
    recognition_stop.
  destruct w as [a p]. destruct a as [? ? ? ? ? ? ? ? ? ? ? rec ? ? tmo]. simpl.
  destruct rec as [r |], tmo as [id |]; simpl;
    repeat split; auto; try congruence;
    try (intros t Ht; apply filter_In in Ht; tauto);
    try (intros r' Hr; injection Hr as <-; reflexivity).
Qed.

End Walk.


Section Branches.

(** The third branch of [updateProductionInterface]. *)
Lemma updateProductionInterface_skip_branch (w : World) (l : DialogueLine) :
  productionLine w = Some l ->
  playRecordings (page w)
    && Js.Set_has (recordCharacters (appState w)) (character l) = false ->
  liveSpeaking (page w)
    && Js.Set_has (speakCharacters (appState w)) (character l) = false ->
  updateProductionInterface w
  = advanceProductionLine (set_statusText "Skipping line" w).
Proof.
  intros Hline Hrec Hspeak. unfold updateProductionInterface.
  rewrite (productionLine_in_range w l Hline), Hline, Hrec, Hspeak. reflexivity.
Qed.

Lemma advanceProductionLine_effect (w : World) :
  productionIndex (advanceProductionLine w) = productionIndex w + 1
  /\ audios (page (advanceProductionLine w)) = audios (page w)
  /\ notListening (advanceProductionLine w)
  /\ timers (page (advanceProductionLine w))
     = timers (page w)
       ++ [mkTimer (nextTimerId (page w)) 500 CbUpdateProductionInterface]
  /\ statusText (page (advanceProductionLine w)) = statusText (page w).
Proof.
  split; [apply index_advanceProductionLine |].
  unfold advanceProductionLine, recognition_stop, notListening.
  destruct w as [a p]. destruct a as [? ? ? ? ? ? ? ? ? ? ? rec ? ? ?]. simpl.
  destruct rec; simpl; repeat split; try congruence.
  intros r' Hr. injection Hr as <-. reflexivity.
Qed.

End Branches.

(** C3: a line whose character is neither a record character nor a live
    character is skipped: updating the interface on it adds one to the
    production index at once, starts no audio, leaves the recogniser stopped
    and queues the update for the next line (500 ms). *)
Theorem updateProductionInterface_auto_skip (w : World) (l : DialogueLine)
    (Hline : productionLine w = Some l)
    (Hrec : Js.Set_has (recordCharacters (appState w)) (character l) = false)
    (Hspeak : Js.Set_has (speakCharacters (appState w)) (character l) = false) :
  productionIndex (updateProductionInterface w) = productionIndex w + 1
  /\ audios (page (updateProductionInterface w)) = audios (page w)
  /\ notListening (updateProductionInterface w)
  /\ timers (page (updateProductionInterface w))
     = timers (page w)
       ++ [mkTimer (nextTimerId (page w)) 500 CbUpdateProductionInterface]
  /\ statusText (page (updateProductionInterface w)) = "Skipping line".
Proof.
  rewrite (updateProductionInterface_skip_branch w l Hline)
    by (rewrite ?Hrec, ?Hspeak; apply andb_false_r).
  destruct (advanceProductionLine_effect (set_statusText "Skipping line" w))
    as (Hi & Ha & Hn & Ht & Hs).
  repeat split; assumption.
Qed.



Section Speech.

Lemma clear_speechTimeout_frame (w : World) :
  isRecording (appState (clear_speechTimeout w)) = isRecording (appState w)
  /\ isProductionMode (appState (clear_speechTimeout w)) = isProductionMode (appState w)
  /\ productionLine (clear_speechTimeout w) = productionLine w
  /\ speakCharacters (appState (clear_speechTimeout w)) = speakCharacters (appState w).
Proof.
  unfold clear_speechTimeout. destruct (speechTimeout (appState w)); repeat split.
Qed.

(** [onresult] on a transcript with a completion word, outside a recording. *)
Lemma recognition_onresult_keyword (transcript : string) (w : World) :
  isProductionMode (appState w) = true ->
  isRecording (appState w) = false ->
  hasCompletionWord (Js.toLowerCase transcript) = true ->
  recognition_onresult transcript w
  = advanceProductionLine (clear_speechTimeout w).
Proof.
  intros Hmode Hrec Hkw. unfold recognition_onresult.
  destruct (clear_speechTimeout_frame w) as (-> & -> & _).
  rewrite Hmode, Hrec, Hkw. reflexivity.
Qed.

(** [onresult] on a transcript without one, on a live line. *)
Lemma recognition_onresult_no_keyword
    (transcript : string) (w : World) (l : DialogueLine) :
  isProductionMode (appState w) = true ->
  productionLine w = Some l ->
  Js.Set_has (speakCharacters (appState w)) (character l) = true ->
  hasCompletionWord (Js.toLowerCase transcript) = false ->
  recognition_onresult transcript w
  = if speechMatchesDialogue l (Js.toLowerCase transcript)
    then snd (setTimeout CbAdvanceProductionLine 1000 (clear_speechTimeout w))
    else clear_speechTimeout w.
Proof.
  intros Hmode Hline Hspeak Hkw. unfold recognition_onresult.
  destruct (clear_speechTimeout_frame w) as (-> & -> & -> & ->).
  rewrite Hmode, Hline, Hspeak, Hkw, !andb_false_r. reflexivity.
Qed.

Lemma currentIsSpeak_true (w : World) (l : DialogueLine) :
  productionLine w = Some l ->
  Js.Set_has (speakCharacters (appState w)) (character l) = true ->
  currentIsSpeak w = true.
Proof. intros Hline Hspeak. unfold currentIsSpeak. now rewrite Hline. Qed.

End Speech.

(** C2, as stated, fails twice.  A live character's line is not listened to
    when the live box is unchecked: it is skipped at once.  And the index
    moves without a completion word and without the 30-second callback: the
    transcript "Hello there friend" matches the line on the teleprompter,
    which queues an advance for one second later. *)
Lemma live_line_claim_fails :
  ~ listens_on_every_live_line (demoWorld [] ["SARAH"] ∅ true false)
  /\ ~ advance_needs_keyword_or_timeout
        (demoWorld [] ["SARAH"] ∅ true true)
        [Speech_result "Hello there friend"; TimerFires 1].
Proof.
  split; intros H.
  - destruct (H (mkLine 1 "SARAH" "Hello there, my friend.") eq_refl eq_refl)
      as [_ Hidx].
    vm_compute in Hidx. discriminate.
  - destruct H as [(t & Hin & Hkw) | (pre & id & post & tm & Hev & Hfind & Hcb)].
    + vm_compute. discriminate.
    + destruct Hin as [Ht | [Ht | []]]; [| discriminate Ht].
      injection Ht as <-. vm_compute in Hkw. discriminate.
    + destruct pre as [| e1 [| e2 [| e3 pre]]]; simpl in Hev.
      * discriminate Hev.
      * injection Hev as <- <- <-. vm_compute in Hfind.
        injection Hfind as <-. discriminate Hcb.
      * injection Hev as _ _ Hev. discriminate Hev.
      * injection Hev as _ _ Hev. destruct pre; discriminate Hev.
Qed.

(** C2, amended: in production mode, on a line of a live character,
    - when the live box is checked and the line is not one that is played
      from a recording, updating the interface starts the recogniser and
      leaves the index, the audio elements and the timers as they are;
    - a transcript with a completion word moves the index by one (when no
      recording is running);
    - a transcript without one, when it matches the dialogue of the line,
      queues an advance for 1000 ms later, and that callback moves the index
      by one; when it does not match, nothing but the pending speech timeout
      changes;
    - the end of recognition arms the 30000 ms speech timeout, and that
      callback moves the index by one. *)
Theorem live_line_advancement (w : World) (l : DialogueLine)
    (Hmode : isProductionMode (appState w) = true)
    (Hline : productionLine w = Some l)
    (Hspeak : Js.Set_has (speakCharacters (appState w)) (character l) = true) :
  (liveSpeaking (page w) = true ->
   playRecordings (page w)
     && Js.Set_has (recordCharacters (appState w)) (character l) = false ->
   updateProductionInterface w
   = recognition_try_start (set_statusText "Waiting for live speech..." w)
   /\ productionIndex (updateProductionInterface w) = productionIndex w
   /\ audios (page (updateProductionInterface w)) = audios (page w)
   /\ timers (page (updateProductionInterface w)) = timers (page w)
   /\ (forall r, recognition (appState w) = Some r ->
         recognition (appState (updateProductionInterface w))
         = Some (mkRecognition true)))
  /\ (forall transcript,
        isRecording (appState w) = false ->
        hasCompletionWord (Js.toLowerCase transcript) = true ->
        productionIndex (recognition_onresult transcript w)
        = productionIndex w + 1)
  /\ (forall transcript,
        hasCompletionWord (Js.toLowerCase transcript) = false ->
        if speechMatchesDialogue l (Js.toLowerCase transcript) then
          recognition_onresult transcript w
          = snd (setTimeout CbAdvanceProductionLine 1000 (clear_speechTimeout w))
          /\ productionIndex (recognition_onresult transcript w) = productionIndex w
          /\ productionIndex
               (run_callback CbAdvanceProductionLine
                  (recognition_onresult transcript w))
             = productionIndex w + 1
        else recognition_onresult transcript w = clear_speechTimeout w)
  /\ (exists id,
        speechTimeout (appState (recognition_onend w)) = Some id
        /\ In (mkTimer id 30000 CbSpeechTimeout)
              (timers (page (recognition_onend w)))
        /\ productionIndex (recognition_onend w) = productionIndex w)
  /\ productionIndex (speechTimeout_callback w) = productionIndex w + 1.
Proof.
  repeat apply conj.
  - intros Hbox Hnorec.
    assert (E : updateProductionInterface w
                = recognition_try_start
                    (set_statusText "Waiting for live speech..." w)).
    { unfold updateProductionInterface.
      rewrite (productionLine_in_range w l Hline), Hline, Hnorec, Hbox, Hspeak.
      reflexivity. }
    rewrite E. unfold recognition_try_start.
    destruct w as [a p]. destruct a as [? ? ? ? ? ? ? ? ? ? ? rec ? ? ?]. simpl.
    destruct rec; simpl; repeat split; try congruence.
  - intros transcript Hrec Hkw.
    rewrite recognition_onresult_keyword by assumption.
    now rewrite index_advanceProductionLine, index_clear_speechTimeout.
  - intros transcript Hkw.
    rewrite (recognition_onresult_no_keyword transcript w l) by assumption.
    destruct (speechMatchesDialogue l (Js.toLowerCase transcript)); [| reflexivity].
    repeat split.
    + apply index_clear_speechTimeout.
    + simpl run_callback. rewrite index_advanceProductionLine.
      f_equal. apply index_clear_speechTimeout.
  - unfold recognition_onend.
    rewrite Hmode, (currentIsSpeak_true w l Hline Hspeak). simpl.
    destruct (speechTimeout (appState w)) as [old |]; simpl.
    + exists (nextTimerId (page w)). repeat split.
      rewrite in_app_iff. left. rewrite in_app_iff. right. now left.
    + exists (nextTimerId (page w)). repeat split.
      rewrite in_app_iff. left. rewrite in_app_iff. right. now left.
  - unfold speechTimeout_callback.
    rewrite Hmode, (currentIsSpeak_true w l Hline Hspeak). simpl.
    apply index_advanceProductionLine.
Qed.

(** C10: [startProduction] sets the index to 0 before it updates the
    interface, so what it does is the same whatever the index was, and it
    leaves the index at 0 or, when the first line is passed at once, at 1.
    [pauseProduction] turns production mode off and changes nothing else of
    the application state (the index included) and nothing of the page but
    the status message.  So a start after a pause begins again at the first
    line: it does what it would do had the pause happened at index 0. *)
Theorem pause_then_start_restarts (w : World) :
  (forall k,
     startProduction (upd_app (with_productionLineIndex k) w) = startProduction w)
  /\ startProduction w
     = showStatusMessage "Production started"
         (updateProductionInterface
            (upd_app (with_productionLineIndex 0)
               (upd_app (with_isProductionMode true) w)))
  /\ productionIndex (startProduction w) <= 1
  /\ appState (pauseProduction w) = with_isProductionMode false (appState w)
  /\ isProductionMode (appState (pauseProduction w)) = false
  /\ productionIndex (pauseProduction w) = productionIndex w
  /\ page (pauseProduction w) = with_statusMessage "Production paused" (page w)
  /\ (forall k,
        startProduction (pauseProduction (upd_app (with_productionLineIndex k) w))
        = startProduction (pauseProduction w)).
Proof.
  repeat apply conj; try reflexivity.
  unfold startProduction.
  set (w0 := upd_app (with_productionLineIndex 0)
               (upd_app (with_isProductionMode true) w)).
  change (productionIndex (updateProductionInterface w0) <= 1).
  destruct (index_updateProductionInterface w0) as [-> | ->];
    unfold w0, productionIndex; simpl; lia.
Qed.

(** ** Facts about the recording session *)

Section Session.



Lemma characterLines_linesOf (w : World) (c : string) :
  currentCharacter (appState w) = Some c ->
  characterLines w = linesOf (dialogueLines (appState w)) c.
Proof. intros H. unfold characterLines. now rewrite H. Qed.

(** [updateRecordingInterface] returns normally, and changes nothing of the
    application state, when the index is 0 or within the character's lines. *)
Lemma updateRecordingInterface_ok (w : World) :
  currentLineIndex (appState w) = 0
  \/ currentLineIndex (appState w) < length (characterLines w) ->
  exists w', updateRecordingInterface w = Normal w'
             /\ appState w' = appState w
             /\ activeSection (page w') = activeSection (page w).
Proof.
  intros H. unfold updateRecordingInterface, currentLine.
  destruct (length (characterLines w) =? 0) eqn:E.
  - eexists. repeat split.
  - apply Nat.eqb_neq in E.
    destruct (nth_error (characterLines w) (currentLineIndex (appState w))) eqn:Hn.
    + eexists. repeat split.
    + apply nth_error_None in Hn. lia.
Qed.

(** The three ways [nextLine] can go. *)
Lemma nextLine_same_character (w : World) (c : string) :
  currentCharacter (appState w) = Some c ->
  currentLineIndex (appState w) + 1 < length (linesOf (dialogueLines (appState w)) c) ->
  exists w',
    nextLine w = Normal w'
    /\ currentCharacter (appState w') = Some c
    /\ currentLineIndex (appState w') = currentLineIndex (appState w) + 1
    /\ dialogueLines (appState w') = dialogueLines (appState w)
    /\ recordCharacters (appState w') = recordCharacters (appState w)
    /\ activeSection (page w') = activeSection (page w).
Proof.
  intros Hc Hlt. unfold nextLine.
  rewrite (characterLines_linesOf w c Hc).
  destruct (Z.of_nat (currentLineIndex (appState w))
            <? Z.of_nat (length (linesOf (dialogueLines (appState w)) c)) - 1)%Z eqn:E;
    [| apply Z.ltb_ge in E; lia].
  set (w1 := upd_app (with_currentLineIndex (currentLineIndex (appState w) + 1)) w).
  destruct (updateRecordingInterface_ok w1) as (w' & -> & Happ & Hsec).
  { right. rewrite (characterLines_linesOf w1 c) by exact Hc. exact Hlt. }
  exists w'. rewrite Happ, Hsec. repeat split. exact Hc.
Qed.




End Session.

Section Keys.

Example demoText_parses : lines (parseDialogue demoText "demo.txt") = demoLines.
Proof. vm_compute. reflexivity. Qed.




(** The statement after the [await]: the clip goes into the map of the
    character that is current then, under the number of the line that was
    current when the recorder stopped. *)
Lemma onstop_store_files (fr : StopFrame) (clip : Blob) (w : World)
    (c : string) (m : gmap nat Blob) (l : DialogueLine) :
  currentCharacter (appState w) = Some c ->
  audioRecordings (appState w) !! c = Some m ->
  fr_currentLine fr = Some l ->
  onstop_store fr clip w
  = Normal (upd_app (with_audioRecordings
              (<[c := <[number l := clip]> m]> (audioRecordings (appState w)))) w)
  /\ recordingFor (world_of (onstop_store fr clip w)) c (number l) = Some clip.
Proof.
  intros Hc Hm Hl. unfold onstop_store. rewrite Hc, Hm, Hl. split; [reflexivity |].
  unfold recordingFor. simpl. rewrite lookup_insert_eq. apply lookup_insert_eq.
Qed.


End Keys.



(** ** More about the parser *)

Section Provenance.

Lemma fromNameLine_more (seen : list string) (line c : string) :
  fromNameLine seen c -> fromNameLine (seen ++ [line]) c.
Proof.
  intros (nl & Hin & Hn & Hc & Hne). exists nl.
  repeat split; try assumption. apply in_or_app. now left.
Qed.

Lemma parse_step_provenance (seen : list string) (st : ParseState) (line : string) :
  provenance seen st -> provenance (seen ++ [line]) (parse_step st line).
Proof.
  intros (Hsub & Hrec & Hcur).
  assert (Hrec' : forall r, In r (p_lines st) ->
            isDialogue (dialogue r) = true
            /\ fromNameLine (seen ++ [line]) (character r)).
  { intros r Hr. destruct (Hrec r Hr). split; [assumption |].
    now apply fromNameLine_more. }
  assert (Hsub' : map dialogue (p_lines st) `sublist_of` seen ++ [line])
    by now apply sublist_inserts_r.
  destruct (parse_step_cases st line)
    as [[_ ->] | [(_ & Hn & ->) | [(_ & _ & Ht & Hd & ->) | (_ & _ & _ & ->)]]];
    unfold provenance, cleared; simpl.
  - split; [exact Hsub' | split; [exact Hrec' | now left]].
  - split; [exact Hsub' | split; [exact Hrec' | right]]. exists line.
    repeat split; [apply in_or_app; right; now left | assumption |].
    now apply characterName_trim_nonempty.
  - apply truthy_nonempty in Ht.
    assert (Hcur' : fromNameLine (seen ++ [line]) (p_currentCharacter st)).
    { destruct Hcur as [E | H]; [congruence | now apply fromNameLine_more]. }
    split; [| split; [| now right]].
    + rewrite map_app. simpl. apply sublist_app; [assumption | reflexivity].
    + intros r Hr. apply in_app_or in Hr. destruct Hr as [Hr | [<- | []]].
      * now apply Hrec'.
      * simpl. split; assumption.
  - split; [exact Hsub' | split; [exact Hrec' |]].
    destruct Hcur as [E | H]; [now left | right; now apply fromNameLine_more].
Qed.

Lemma parse_loop_provenance (textLines seen : list string) (st : ParseState) :
  provenance seen st -> provenance (seen ++ textLines) (parse_loop st textLines).
Proof.
  revert seen st. induction textLines as [| l ls IH]; intros seen st H.
  - now rewrite app_nil_r.
  - change (parse_loop st (l :: ls)) with (parse_loop (parse_step st l) ls).
    replace (seen ++ l :: ls) with ((seen ++ [l]) ++ ls)
      by (now rewrite <- app_assoc).
    apply IH, parse_step_provenance, H.
Qed.

End Provenance.

(** Where the records come from: the dialogue texts of the result are, in
    order, some of the trimmed non-empty lines of the text (so there are at
    most as many records as lines); each is a line that looks like dialogue,
    and each record's character is the trimmed, non-empty text of a
    character-name line of the text. *)
Theorem parseDialogue_provenance (text fileName : string) :
  map dialogue (lines (parseDialogue text fileName)) `sublist_of` textLines_of text
  /\ length (lines (parseDialogue text fileName)) <= length (textLines_of text)
  /\ (forall r, In r (lines (parseDialogue text fileName)) ->
        isDialogue (dialogue r) = true
        /\ character r <> ""
        /\ exists nameLine,
             In nameLine (textLines_of text)
             /\ isCharacterName nameLine = true
             /\ character r = Js.trim nameLine).
Proof.
  destruct (parse_loop_provenance (textLines_of text) [] (mkParse [] [] 1 ""))
    as (Hsub & Hrec & _).
  { split; [apply sublist_nil_l | split; [intros r [] | now left]]. }
  unfold parseDialogue; simpl in *.
  split; [exact Hsub |]. split.
  - apply sublist_length in Hsub. now rewrite length_map in Hsub.
  - intros r Hr. destruct (Hrec r Hr) as (Hd & nl & Hin & Hn & Hc & Hne).
    split; [exact Hd |]. split; [exact Hne |]. now exists nl.
Qed.

Section NameShape.

(** A name line has only capitals and single spaces: what [split] and the
    test of every word leave. *)
Lemma words_upper_all (line : string) :
  forallb (Js.all Js.isUpperAZ) (Js.split Js.SPACE line) = true ->
  Js.all (fun c => Js.isUpperAZ c || Ascii.eqb c Js.SPACE) line = true.
Proof.
  induction line as [| c s IH]; [reflexivity |].
  simpl. destruct (Ascii.eqb c Js.SPACE) eqn:Ec.
  - simpl. intros H. rewrite orb_true_r. simpl. now apply IH.
  - destruct (Js.split Js.SPACE s) as [| w ws]; simpl in *.
    + intros H. apply andb_true_iff in H. destruct H as [H _].
      apply andb_true_iff in H. destruct H as [Hc _].
      rewrite Hc. simpl. now apply IH.
    + intros H. apply andb_true_iff in H. destruct H as [H Hws].
      apply andb_true_iff in H. destruct H as [Hc Hw].
      rewrite Hc. simpl. apply IH. now rewrite Hw, Hws.
Qed.

(** The length of a line, from its words: one separator less than words. *)
Lemma split_lengths (line : string) :
  String.length line + 1
  = list_sum (map (fun w => String.length w + 1) (Js.split Js.SPACE line)).
Proof.
  induction line as [| c s IH]; [reflexivity |].
  simpl. destruct (Ascii.eqb c Js.SPACE).
  - simpl. lia.
  - destruct (Js.split Js.SPACE s) as [| w ws]; simpl in *; lia.
Qed.

Lemma words_bound (words : list string) :
  forallb (fun word => Js.re_allUpper word && (1 <? String.length word)
                       && (String.length word <=? 15)) words = true ->
  forallb (Js.all Js.isUpperAZ) words = true
  /\ 3 * length words <= list_sum (map (fun w => String.length w + 1) words)
     <= 16 * length words.
Proof.
  induction words as [| w ws IH]; simpl; [intros _; split; [reflexivity | lia] |].
  intros H. apply andb_true_iff in H. destruct H as [H Hws].
  apply andb_true_iff in H. destruct H as [H H15].
  apply andb_true_iff in H. destruct H as [Hup H1].
  unfold Js.re_allUpper in Hup. apply andb_true_iff in Hup. destruct Hup as [_ Hup].
  apply Nat.ltb_lt in H1. apply Nat.leb_le in H15.
  destruct (IH Hws) as [Hall Hsum]. rewrite Hup, Hall. split; [reflexivity | lia].
Qed.

End NameShape.

(** The shape of a character name: a line is taken for one only if it is
    made of the capitals A-Z and spaces alone and is between 2 and 63
    characters long.  So a name with a digit, a period, an apostrophe, a
    colon or a lower-case letter is never a character name. *)
Theorem isCharacterName_shape (line : string)
    (Hname : isCharacterName line = true) :
  Js.all (fun c => Js.isUpperAZ c || Ascii.eqb c Js.SPACE) line = true
  /\ 2 <= String.length line <= 63.
Proof.
  unfold isCharacterName in Hname.
  destruct (isSceneHeading line || isCharacterDescription line); [discriminate |].
  unfold isCharacterNameDirect in Hname.
  destruct ((1 <=? length (Js.split Js.SPACE line))
            && (length (Js.split Js.SPACE line) <=? 4)) eqn:Hlen; [| discriminate].
  apply andb_true_iff in Hlen. destruct Hlen as [H1 H4].
  apply Nat.leb_le in H1. apply Nat.leb_le in H4.
  apply andb_true_iff in Hname. destruct Hname as [Hall _].
  destruct (words_bound _ Hall) as [Hup Hsum].
  split; [now apply words_upper_all |].
  pose proof (split_lengths line). lia.
Qed.

(** No character-name line, no dialogue: a text none of whose lines is a
    character name (the empty text, or a script written as
    "NAME: dialogue") gives no records and no characters. *)
Theorem parseDialogue_without_names (text fileName : string)
    (Hnone : Forall (fun l => isCharacterName l = false) (textLines_of text)) :
  parseDialogue text fileName = mkResult [] [].
Proof.
  unfold parseDialogue.
  change (mkParse [] [] 1 "") with (cleared (mkParse [] [] 1 "")).
  now rewrite parse_loop_cleared_no_name.
Qed.

(** ** More about speech recognition *)

Section Substrings.

Lemma toLowerCase_app (a b : string) :
  Js.toLowerCase (a +:+ b) = Js.toLowerCase a +:+ Js.toLowerCase b.
Proof. induction a as [| c a IH]; simpl; [reflexivity | now rewrite IH]. Qed.

Lemma startsWith_app (p s : string) : Js.startsWith (p +:+ s) p = true.
Proof.
  unfold Js.startsWith. induction p as [| c p IH]; simpl; [now destruct s |].
  destruct (ascii_dec c c); [exact IH | contradiction].
Qed.

Lemma includes_app (pre sub post : string) :
  Js.includes (pre +:+ sub +:+ post) sub = true.
Proof.
  induction pre as [| c pre IH].
  - change ("" +:+ sub +:+ post) with (sub +:+ post).
    pose proof (startsWith_app sub post) as H.
    destruct (sub +:+ post); cbn [Js.includes]; now rewrite H.
  - change (String c pre +:+ sub +:+ post) with (String c (pre +:+ sub +:+ post)).
    cbn [Js.includes]. rewrite IH. apply orb_true_r.
Qed.

Lemma filter_members (D l : list string) :
  incl l D -> List.filter (fun w => existsb (String.eqb w) D) l = l.
Proof.
  induction l as [| a l IH]; intros Hincl; simpl; [reflexivity |].
  assert (Ha : existsb (String.eqb a) D = true).
  { apply existsb_exists. exists a. split; [apply Hincl; now left |].
    apply String.eqb_refl. }
  rewrite Ha, IH; [reflexivity |]. intros x Hx. apply Hincl. now right.
Qed.

Lemma filter_no_members (l : list string) :
  List.filter (fun w => existsb (String.eqb w) []) l = [].
Proof. induction l; simpl; auto. Qed.

End Substrings.

(** Completion words are looked for as substrings of the lower-cased
    transcript: a transcript that holds one of them anywhere, in any case,
    even inside a longer word, counts; in production mode, with no
    recording running, it moves the production index by one. *)
Theorem keyword_anywhere_advances (w : World) (pre spoken post : string)
    (Hkw : In (Js.toLowerCase spoken) completionWords)
    (Hmode : isProductionMode (appState w) = true)
    (Hrec : isRecording (appState w) = false) :
  hasCompletionWord (Js.toLowerCase (pre +:+ spoken +:+ post)) = true
  /\ productionIndex (recognition_onresult (pre +:+ spoken +:+ post) w)
     = productionIndex w + 1.
Proof.
  assert (H : hasCompletionWord (Js.toLowerCase (pre +:+ spoken +:+ post)) = true).
  { unfold hasCompletionWord. apply existsb_exists.
    exists (Js.toLowerCase spoken). split; [exact Hkw |].
    rewrite !toLowerCase_app. apply includes_app. }
  split; [exact H |].
  rewrite recognition_onresult_keyword by assumption.
  now rewrite index_advanceProductionLine, index_clear_speechTimeout.
Qed.

(** Reading the line aloud: when the dialogue has a word longer than three
    characters, a transcript equal to the dialogue (in any case) matches it.
    When it has more than two words and none longer than three characters,
    no transcript at all matches it: such a line moves on only by a
    completion word or the timeout. *)
Theorem speechMatchesDialogue_verbatim (l : DialogueLine) :
  (forall transcript,
     longWords (Js.toLowerCase (dialogue l)) <> [] ->
     Js.toLowerCase transcript = Js.toLowerCase (dialogue l) ->
     speechMatchesDialogue l (Js.toLowerCase transcript) = true)
  /\ (forall result,
        longWords (Js.toLowerCase (dialogue l)) = [] ->
        2 < length (Js.split Js.SPACE (dialogue l)) ->
        speechMatchesDialogue l result = false).
Proof.
  split.
  - intros transcript Hne ->. unfold speechMatchesDialogue.
    rewrite filter_members by apply incl_refl.
    destruct (longWords (Js.toLowerCase (dialogue l))) as [| a [| b D]];
      [congruence | reflexivity | reflexivity].
  - intros result Hnone Hlong. unfold speechMatchesDialogue.
    rewrite Hnone, filter_no_members. simpl.
    apply Nat.leb_gt in Hlong. now rewrite Hlong.
Qed.

(** ** More about the recording session *)

Section SessionInvariant.

Lemma indexOf_bounds (arr : list string) (x : string) :
  (-1 <= Js.indexOf arr x < Z.of_nat (length arr))%Z.
Proof.
  induction arr as [| y ys IH]; simpl; [lia |].
  destruct (String.eqb y x); [lia |].
  destruct (Js.indexOf ys x <? 0)%Z eqn:E; [lia |].
  apply Z.ltb_ge in E. lia.
Qed.

Lemma linesOf_nonempty_length (ls : list DialogueLine) (c : string) :
  linesOf ls c <> [] -> 0 < length (linesOf ls c).
Proof. destruct (linesOf ls c); [congruence | simpl; lia]. Qed.

(** [nextLine] keeps the session on a line and touches neither the script,
    the selection nor the clips. *)
Lemma nextLine_onALine (w : World) :
  recordCharactersReady w -> onALine w ->
  exists w',
    nextLine w = Normal w'
    /\ onALine w'
    /\ dialogueLines (appState w') = dialogueLines (appState w)
    /\ recordCharacters (appState w') = recordCharacters (appState w)
    /\ audioRecordings (appState w') = audioRecordings (appState w).
Proof.
  intros Hready (c & Hc & Hin & Hidx). unfold nextLine.
  rewrite (characterLines_linesOf w c Hc).
  destruct (Z.of_nat (currentLineIndex (appState w))
            <? Z.of_nat (length (linesOf (dialogueLines (appState w)) c)) - 1)%Z eqn:E.
  - apply Z.ltb_lt in E.
    set (w1 := upd_app (with_currentLineIndex (currentLineIndex (appState w) + 1)) w).
    destruct (updateRecordingInterface_ok w1) as (w' & -> & Happ & _).
    { right. rewrite (characterLines_linesOf w1 c) by exact Hc. simpl. lia. }
    exists w'. split; [reflexivity |]. split; [| rewrite Happ; repeat split].
    exists c. rewrite Happ. repeat split; [exact Hc | exact Hin | simpl; lia].
  - pose proof (indexOf_bounds (recordCharacters (appState w)) c) as Hb.
    unfold currentCharacterIndex. rewrite Hc.
    destruct (Js.indexOf (recordCharacters (appState w)) c
              <? Z.of_nat (length (recordCharacters (appState w))) - 1)%Z eqn:E2.
    + apply Z.ltb_lt in E2.
      destruct (nth_error (recordCharacters (appState w))
                  (Z.to_nat (Js.indexOf (recordCharacters (appState w)) c + 1)))
        as [c' |] eqn:Hn; [| apply nth_error_None in Hn; lia].
      set (w2 := upd_app (with_currentLineIndex 0)
                   (upd_app (with_currentCharacter (Some c')) w)).
      destruct (updateRecordingInterface_ok w2) as (w' & -> & Happ & _);
        [now left |].
      exists w'. split; [reflexivity |]. split; [| rewrite Happ; repeat split].
      apply nth_error_In in Hn. exists c'. rewrite Happ.
      repeat split; [exact Hn |].
      simpl. apply linesOf_nonempty_length, (Hready c' Hn).
    + exists (finishRecordingSession w). repeat split.
      exists c. repeat split; assumption.
Qed.

Lemma previousLine_onALine (w : World) :
  onALine w ->
  exists w',
    previousLine w = Normal w'
    /\ onALine w'
    /\ currentCharacter (appState w') = currentCharacter (appState w)
    /\ dialogueLines (appState w') = dialogueLines (appState w)
    /\ recordCharacters (appState w') = recordCharacters (appState w)
    /\ audioRecordings (appState w') = audioRecordings (appState w).
Proof.
  intros (c & Hc & Hin & Hidx). unfold previousLine.
  destruct (0 <? currentLineIndex (appState w)) eqn:E.
  - set (w1 := upd_app (with_currentLineIndex (currentLineIndex (appState w) - 1)) w).
    destruct (updateRecordingInterface_ok w1) as (w' & -> & Happ & _).
    { right. rewrite (characterLines_linesOf w1 c) by exact Hc. simpl. lia. }
    exists w'. split; [reflexivity |]. split; [| rewrite Happ; repeat split].
    exists c. rewrite Happ. repeat split; [exact Hc | exact Hin | simpl; lia].
  - exists w. repeat split. exists c. repeat split; assumption.
Qed.

Lemma onALine_currentLine (w : World) :
  onALine w ->
  exists c l, currentCharacter (appState w) = Some c
              /\ In c (recordCharacters (appState w))
              /\ currentLine w = Some l.
Proof.
  intros (c & Hc & Hin & Hidx). unfold currentLine.
  rewrite (characterLines_linesOf w c Hc).
  destruct (nth_error (linesOf (dialogueLines (appState w)) c)
              (currentLineIndex (appState w))) as [l |] eqn:Hn.
  - now exists c, l.
  - apply nth_error_None in Hn. lia.
Qed.

(** Putting a map of clips back under a record character keeps every record
    character ready. *)
Lemma ready_insert (w : World) (c : string) (m : gmap nat Blob) :
  recordCharactersReady w ->
  recordCharactersReady
    (upd_app (with_audioRecordings (<[c := m]> (audioRecordings (appState w)))) w).
Proof.
  intros Hready c' Hin. destruct (Hready c' Hin) as [Hmap Hlines].
  split; [| exact Hlines]. simpl.
  destruct (decide (c = c')) as [-> | Hne].
  - rewrite lookup_insert_eq. eauto.
  - now rewrite lookup_insert_ne.
Qed.

Lemma onALine_same_session (w w' : World) :
  currentCharacter (appState w') = currentCharacter (appState w) ->
  currentLineIndex (appState w') = currentLineIndex (appState w) ->
  dialogueLines (appState w') = dialogueLines (appState w) ->
  recordCharacters (appState w') = recordCharacters (appState w) ->
  onALine w -> onALine w'.
Proof.
  intros Hc Hi Hl Hr (c & H1 & H2 & H3). exists c.
  rewrite Hc, Hi, Hl, Hr. repeat split; assumption.
Qed.

Lemma ready_same_session (w w' : World) :
  dialogueLines (appState w') = dialogueLines (appState w) ->
  recordCharacters (appState w') = recordCharacters (appState w) ->
  audioRecordings (appState w') = audioRecordings (appState w) ->
  recordCharactersReady w -> recordCharactersReady w'.
Proof.
  intros Hl Hr Ha H c. rewrite Hl, Hr, Ha. apply H.
Qed.

Lemma startRecording_frame (granted : bool) (effect : string) (w : World) :
  currentCharacter (appState (startRecording granted effect w))
  = currentCharacter (appState w)
  /\ currentLineIndex (appState (startRecording granted effect w))
     = currentLineIndex (appState w)
  /\ dialogueLines (appState (startRecording granted effect w))
     = dialogueLines (appState w)
  /\ recordCharacters (appState (startRecording granted effect w))
     = recordCharacters (appState w)
  /\ audioRecordings (appState (startRecording granted effect w))
     = audioRecordings (appState w).
Proof.
  unfold startRecording. destruct granted; [| repeat split].
  destruct w as [a p]. destruct a as [? ? ? ? ? ? ? ? ? ? ? rec ? ? ?]. simpl.
  destruct rec as [[[] ] |]; repeat split.
Qed.

Lemma stopRecording_frame (w : World) :
  currentCharacter (appState (stopRecording w)) = currentCharacter (appState w)
  /\ currentLineIndex (appState (stopRecording w)) = currentLineIndex (appState w)
  /\ dialogueLines (appState (stopRecording w)) = dialogueLines (appState w)
  /\ recordCharacters (appState (stopRecording w)) = recordCharacters (appState w)
  /\ audioRecordings (appState (stopRecording w)) = audioRecordings (appState w).
Proof.
  unfold stopRecording, recognition_stop.
  destruct w as [a p]. destruct a as [? ? ? ? ? ? ? ? rcd mr ? rec ? ? ?]. simpl.
  destruct mr; [| repeat split]. destruct rcd; [| repeat split].
  destruct rec; repeat split.
Qed.

(** One event of the session: it returns normally and the session stays on
    a line, with every record character ready. *)
Lemma sessionStep_safe (render : Blob -> string -> option Blob)
    (w : World) (e : SessionEvent) :
  recordCharactersReady w -> onALine w ->
  exists w', sessionStep render w e = Normal w'
             /\ recordCharactersReady w' /\ onALine w'.
Proof.
  intros Hready Hon. destruct e as [[| |] | | granted effect | data | |]; simpl.
  - destruct (nextLine_onALine w Hready Hon) as (w' & E & Hon' & Hl & Hr & Ha).
    exists w'. split; [exact E |]. split; [| exact Hon'].
    now apply (ready_same_session w).
  - destruct (previousLine_onALine w Hon) as (w' & E & Hon' & _ & Hl & Hr & Ha).
    exists w'. split; [exact E |]. split; [| exact Hon'].
    now apply (ready_same_session w).
  - unfold skipLine.
    destruct (nextLine_onALine w Hready Hon) as (w' & E & Hon' & Hl & Hr & Ha).
    exists w'. split; [exact E |]. split; [| exact Hon'].
    now apply (ready_same_session w).
  - destruct (onALine_currentLine w Hon) as (c & l & Hc & Hin & Hline).
    destruct (Hready c Hin) as [[m Hm] _].
    unfold rerecordLine. rewrite Hc, Hm, Hline. eexists. split; [reflexivity |].
    split.
    + apply (ready_same_session
               (upd_app (with_audioRecordings
                  (<[c := delete (number l) m]> (audioRecordings (appState w)))) w));
        try reflexivity.
      now apply ready_insert.
    + now apply (onALine_same_session w).
  - destruct (startRecording_frame granted effect w) as (Hc & Hi & Hl & Hr & Ha).
    eexists. split; [reflexivity |]. split.
    + now apply (ready_same_session w).
    + now apply (onALine_same_session w).
  - eexists. split; [reflexivity |]. split.
    + now apply (ready_same_session w).
    + now apply (onALine_same_session w).
  - destruct (stopRecording_frame w) as (Hc & Hi & Hl & Hr & Ha).
    eexists. split; [reflexivity |]. split.
    + now apply (ready_same_session w).
    + now apply (onALine_same_session w).
  - destruct (mediaRecorder (appState w)) as [mr |]; [| now exists w].
    destruct (onALine_currentLine w Hon) as (c & l & Hc & Hin & Hline).
    destruct (Hready c Hin) as [[m Hm] _].
    destruct (onstop_store_files (onstop_begin mr w)
                (processedAudioBlob render (onstop_begin mr w)) w c m l Hc Hm Hline)
      as [E _].
    unfold mediaRecorder_onstop. rewrite E. eexists. split; [reflexivity |].
    split; [now apply ready_insert | now apply (onALine_same_session w)].
Qed.

End SessionInvariant.

(** A recording session never throws.  When every record character has its
    map of clips and at least one line, [startRecordingSession] puts the
    session on the first line of the first record character, and from there
    any sequence of navigation, rerecord, start, data, stop and
    recorder-stopped events runs to its end without a [TypeError], the
    session staying on an existing line of a record character throughout
    (so every stopped recording is stored). *)
Theorem recording_session_never_throws
    (render : Blob -> string -> option Blob)
    (w : World) (events : list SessionEvent)
    (Hsel : recordCharacters (appState w) <> [])
    (Hready : recordCharactersReady w) :
  exists w0 w',
    startRecordingSession w = Normal w0
    /\ currentCharacter (appState w0) = nth_error (recordCharacters (appState w)) 0
    /\ currentLineIndex (appState w0) = 0
    /\ sessionRun render w0 events = Normal w'
    /\ onALine w'
    /\ recordCharactersReady w'.
Proof.
  unfold startRecordingSession.
  destruct (recordCharacters (appState w)) as [| first rest] eqn:Hrc; [congruence |].
  set (w1 := upd_app (with_currentLineIndex 0)
               (upd_app (with_currentCharacter (Some first)) w)).
  destruct (updateRecordingInterface_ok w1) as (w2 & -> & Happ & _); [now left |].
  simpl bind.
  assert (Hfirst : In first (recordCharacters (appState w)))
    by (rewrite Hrc; now left).
  assert (Hon : onALine (showSection "recording-section" w2)).
  { exists first. simpl. rewrite Happ. simpl. repeat split; [exact Hfirst |].
    apply linesOf_nonempty_length, (Hready first Hfirst). }
  assert (Hready0 : recordCharactersReady (showSection "recording-section" w2)).
  { intros c. simpl. rewrite Happ. simpl. apply Hready. }
  exists (showSection "recording-section" w2).
  assert (Hrun : forall es w0,
            recordCharactersReady w0 -> onALine w0 ->
            exists w', sessionRun render w0 es = Normal w'
                       /\ onALine w' /\ recordCharactersReady w').
  { induction es as [| e es IH]; intros w0 Hr0 Ho0; [now exists w0 |].
    destruct (sessionStep_safe render w0 e Hr0 Ho0) as (w' & E & Hr' & Ho').
    simpl. rewrite E. simpl. now apply IH. }
  destruct (Hrun events _ Hready0 Hon) as (w' & E & Ho & Hr).
  exists w'.
  split; [reflexivity |]. split; [simpl; now rewrite Happ |].
  split; [simpl; now rewrite Happ |]. split; [exact E |]. now split.
Qed.

Section Selection.




End Selection.


(** "Rerecord" removes the clip of the line on the teleprompter and no
    other: afterwards nothing is stored under (character, number) of that
    line, every other entry is as before, and the session is on the same
    line.  With a map for the character but no line on the teleprompter it
    throws, changing nothing; with no map it does nothing to the clips. *)
Theorem rerecordLine_removes_current (w : World) (c : string) :
  currentCharacter (appState w) = Some c ->
  (forall l m,
     currentLine w = Some l ->
     audioRecordings (appState w) !! c = Some m ->
     exists w',
       rerecordLine w = Normal w'
       /\ recordingFor w' c (number l) = None
       /\ (forall c' n, (c', n) <> (c, number l) ->
             recordingFor w' c' n = recordingFor w c' n)
       /\ currentLine w' = Some l)
  /\ (currentLine w = None ->
      is_Some (audioRecordings (appState w) !! c) ->
      rerecordLine w = TypeError w)
  /\ (audioRecordings (appState w) !! c = None ->
      exists w', rerecordLine w = Normal w'
                 /\ audioRecordings (appState w') = audioRecordings (appState w)).
Proof.
  intros Hc. unfold rerecordLine. rewrite Hc. repeat apply conj.
  - intros l m Hl Hm. rewrite Hm, Hl. eexists. split; [reflexivity |].
    split; [| split; [| exact Hl]].
    + unfold recordingFor. simpl. rewrite lookup_insert_eq. apply lookup_delete_eq.
    + intros c' n Hne. unfold recordingFor. simpl.
      destruct (decide (c = c')) as [<- | Hcc].
      * rewrite lookup_insert_eq, Hm. apply lookup_delete_ne. congruence.
      * now rewrite lookup_insert_ne.
  - intros Hl [m Hm]. now rewrite Hm, Hl.
  - intros Hm. rewrite Hm. eexists. split; reflexivity.
Qed.

Section Chunks.

Lemma deliver_chunks (chunks : list Blob) (w : World) :
  audioChunks (appState (deliver w chunks)) = audioChunks (appState w) ++ chunks
  /\ currentCharacter (appState (deliver w chunks)) = currentCharacter (appState w)
  /\ currentLine (deliver w chunks) = currentLine w
  /\ audioRecordings (appState (deliver w chunks)) = audioRecordings (appState w)
  /\ isRecording (appState (deliver w chunks)) = isRecording (appState w)
  /\ mediaRecorder (appState (deliver w chunks)) = mediaRecorder (appState w).
Proof.
  revert w. induction chunks as [| d ds IH]; intros w.
  - simpl. now rewrite app_nil_r.
  - unfold deliver. simpl.
    destruct (IH (mediaRecorder_ondataavailable d w)) as (H1 & H2 & H3 & H4 & H5 & H6).
    unfold deliver in *. rewrite H1, H2, H3, H4, H5, H6. simpl.
    now rewrite <- app_assoc.
Qed.

Lemma startRecording_granted (effect : string) (w : World) :
  audioChunks (appState (startRecording true effect w)) = []
  /\ isRecording (appState (startRecording true effect w)) = true
  /\ mediaRecorder (appState (startRecording true effect w)) = Some (mkRecorder effect)
  /\ currentLine (startRecording true effect w) = currentLine w.
Proof.
  unfold startRecording, currentLine, characterLines.
  destruct w as [a p]. destruct a as [? ? ? ? ? ? ? ? ? ? ? rec ? ? ?]. simpl.
  destruct rec as [[[] ] |]; repeat split.
Qed.

End Chunks.

(** What is stored is what was recorded since the last start: starting a
    recording empties the chunk list, the chunks then delivered are kept in
    order, and when the recorder stops with the effect ['none'] the clip
    stored under (character, number) of the current line is their
    concatenation, whatever chunks an earlier recording had left. *)
Theorem recording_stores_its_chunks
    (render : Blob -> string -> option Blob)
    (w : World) (chunks : list Blob)
    (c : string) (l : DialogueLine) (m : gmap nat Blob)
    (Hc : currentCharacter (appState w) = Some c)
    (Hl : currentLine w = Some l)
    (Hm : audioRecordings (appState w) !! c = Some m) :
  audioChunks (appState (deliver (startRecording true "none" w) chunks)) = chunks
  /\ isRecording (appState (deliver (startRecording true "none" w) chunks)) = true
  /\ recordingFor
       (world_of (sessionStep render
                    (deliver (startRecording true "none" w) chunks)
                    S_recorderStopped))
       c (number l)
     = Some (concat chunks).
Proof.
  set (w1 := startRecording true "none" w).
  destruct (startRecording_granted "none" w) as (Hch & Hrec & Hmr & Hline).
  destruct (startRecording_frame true "none" w) as (Hc1 & _ & _ & _ & Ha1).
  destruct (deliver_chunks chunks w1) as (H1 & H2 & H3 & H4 & H5 & H6).
  fold w1 in Hch, Hrec, Hmr, Hline, Hc1, Ha1.
  rewrite Hch in H1. simpl in H1.
  split; [exact H1 |]. split; [now rewrite H5 |].
  simpl sessionStep. rewrite H6, Hmr.
  destruct (onstop_store_files
              (onstop_begin (mkRecorder "none") (deliver w1 chunks))
              (processedAudioBlob render
                 (onstop_begin (mkRecorder "none") (deliver w1 chunks)))
              (deliver w1 chunks) c m l) as [_ Hst].
  - now rewrite H2, Hc1.
  - now rewrite H4, Ha1.
  - simpl. now rewrite H3, Hline.
  - unfold mediaRecorder_onstop. rewrite Hst. f_equal.
    unfold processedAudioBlob. simpl. unfold new_Blob. now rewrite H1.
Qed.

(** "Previous" stays within the character: it never changes the current
    character, does nothing on a character's first line, and after a
    [nextLine] that stayed within the character it puts the application
    state back exactly as it was. *)
Theorem previousLine_within_character (w : World) :
  currentCharacter (appState (world_of (previousLine w)))
  = currentCharacter (appState w)
  /\ (currentLineIndex (appState w) = 0 -> previousLine w = Normal w)
  /\ (currentLineIndex (appState w) + 1 < length (characterLines w) ->
      exists w1 w2,
        nextLine w = Normal w1
        /\ currentLineIndex (appState w1) = currentLineIndex (appState w) + 1
        /\ previousLine w1 = Normal w2
        /\ appState w2 = appState w).
Proof.
  repeat apply conj.
  - unfold previousLine. destruct (0 <? currentLineIndex (appState w)); [| reflexivity].
    unfold updateRecordingInterface.
    destruct (length _ =? 0); [reflexivity |]. destruct (currentLine _); reflexivity.
  - intros H0. unfold previousLine. now rewrite H0.
  - intros Hlt.
    destruct (currentCharacter (appState w)) as [c |] eqn:Hc;
      [| unfold characterLines in Hlt; rewrite Hc in Hlt; simpl in Hlt; lia].
    rewrite (characterLines_linesOf w c Hc) in Hlt.
    destruct (nextLine_same_character w c Hc Hlt)
      as (w1 & E1 & Hc1 & Hi1 & Hl1 & Hr1 & _).
    assert (Happ1 : appState w1
                    = with_currentLineIndex (currentLineIndex (appState w) + 1)
                        (appState w)).
    { unfold nextLine in E1. rewrite (characterLines_linesOf w c Hc) in E1.
      destruct (Z.of_nat (currentLineIndex (appState w))
                <? Z.of_nat (length (linesOf (dialogueLines (appState w)) c)) - 1)%Z
        eqn:E; [| apply Z.ltb_ge in E; lia].
      set (wi := upd_app (with_currentLineIndex (currentLineIndex (appState w) + 1)) w)
        in E1.
      destruct (updateRecordingInterface_ok wi) as (w' & E' & Happ & _).
      { right. rewrite (characterLines_linesOf wi c) by exact Hc. exact Hlt. }
      rewrite E' in E1. injection E1 as <-. exact Happ. }
    exists w1. unfold previousLine. rewrite Hi1.
    replace (0 <? currentLineIndex (appState w) + 1) with true
      by (symmetry; apply Nat.ltb_lt; lia).
    set (w2 := upd_app (with_currentLineIndex
                          (currentLineIndex (appState w) + 1 - 1)) w1).
    destruct (updateRecordingInterface_ok w2) as (w' & E' & Happ & _).
    { right. rewrite (characterLines_linesOf w2 c) by exact Hc1.
      simpl. rewrite Hl1. lia. }
    exists w'. split; [exact E1 |]. split; [reflexivity |]. split; [exact E' |].
    rewrite Happ. unfold w2. simpl. rewrite Happ1.
    destruct (appState w). unfold with_currentLineIndex. simpl. f_equal. lia.
Qed.

(** Stopping a recording: with a recorder and a recording running, the
    recording flag goes off and one [nextLine] callback is queued for
    1000 ms; otherwise nothing changes.  So a second stop right after the
    first does nothing (one callback per recording), and a stop never
    touches the production index, the chunks or the clips. *)
Theorem stopRecording_once (w : World) :
  stopRecording (stopRecording w) = stopRecording w
  /\ (forall mr, mediaRecorder (appState w) = Some mr ->
        isRecording (appState (stopRecording w)) = false)
  /\ (forall mr, mediaRecorder (appState w) = Some mr ->
        isRecording (appState w) = true ->
        timers (page (stopRecording w))
        = timers (page w) ++ [mkTimer (nextTimerId (page w)) 1000 CbNextLine])
  /\ (mediaRecorder (appState w) = None \/ isRecording (appState w) = false ->
      stopRecording w = w)
  /\ productionIndex (stopRecording w) = productionIndex w
  /\ audioChunks (appState (stopRecording w)) = audioChunks (appState w)
  /\ audioRecordings (appState (stopRecording w)) = audioRecordings (appState w).
Proof.
  unfold stopRecording, recognition_stop, productionIndex.
  destruct w as [a p]. destruct a as [? ? ? ? ? ? ? ? rcd mr ? rec ? ? ?]. simpl.
  destruct mr as [mr |], rcd, rec; simpl; repeat apply conj;
    try reflexivity; try (intros ? ?; congruence); try (intros ? ? ?; reflexivity);
    try (intros [? | ?]; congruence); try (intros; reflexivity).
Qed.

(** A completion word heard while a recording runs stops the recording, and
    does so instead of advancing the production: the index stays, even in
    production mode, and the move to the next line to record is queued. *)
Theorem keyword_while_recording_stops (w : World) (transcript : string)
    (mr : MediaRecorder)
    (Hrec : isRecording (appState w) = true)
    (Hmr : mediaRecorder (appState w) = Some mr)
    (Hkw : hasCompletionWord (Js.toLowerCase transcript) = true) :
  recognition_onresult transcript w = stopRecording (clear_speechTimeout w)
  /\ isRecording (appState (recognition_onresult transcript w)) = false
  /\ productionIndex (recognition_onresult transcript w) = productionIndex w
  /\ exists id, In (mkTimer id 1000 CbNextLine)
                   (timers (page (recognition_onresult transcript w))).
Proof.
  assert (E : recognition_onresult transcript w = stopRecording (clear_speechTimeout w)).
  { unfold recognition_onresult.
    destruct (clear_speechTimeout_frame w) as (-> & _).
    now rewrite Hrec, Hkw. }
  rewrite E. split; [reflexivity |].
  split; [| split].
  - unfold stopRecording, clear_speechTimeout, recognition_stop.
    destruct w as [a p]. destruct a as [? ? ? ? ? ? ? ? rcd mr' ? rec ? ? tmo].
    simpl in *. subst. destruct tmo, rec; reflexivity.
  - now rewrite index_stopRecording, index_clear_speechTimeout.
  - unfold stopRecording, clear_speechTimeout, recognition_stop.
    destruct w as [a p]. destruct a as [? ? ? ? ? ? ? ? rcd mr' ? rec ? ? tmo].
    simpl in *. subst.
    destruct tmo, rec; simpl; eexists; apply in_or_app; right; left; reflexivity.
Qed.

(** ** More about production *)

Section Setting.

Lemma sameSetting_refl (w : World) : sameSetting w w.
Proof. repeat split. Qed.

Lemma sameSetting_trans (w1 w2 w3 : World) :
  sameSetting w1 w2 -> sameSetting w2 w3 -> sameSetting w1 w3.
Proof.
  intros (A1 & A2 & A3 & A4 & A5 & A6) (B1 & B2 & B3 & B4 & B5 & B6).
  repeat split; congruence.
Qed.

Lemma passedAtOnce_sameSetting (w w' : World) (l : DialogueLine) :
  sameSetting w w' -> passedAtOnce w' l = passedAtOnce w l.
Proof.
  intros (A1 & A2 & A3 & A4 & A5 & A6).
  unfold passedAtOnce, recordingFor. now rewrite A2, A3, A4, A5, A6.
Qed.

(** [updateProductionInterface] on a line that is passed at once: the index
    moves by one, the next update is the one timer added, nothing plays. *)
Lemma updateProductionInterface_passes (w : World) (l : DialogueLine) :
  productionLine w = Some l ->
  passedAtOnce w l = true ->
  productionIndex (updateProductionInterface w) = productionIndex w + 1
  /\ timers (page (updateProductionInterface w))
     = timers (page w)
       ++ [mkTimer (nextTimerId (page w)) 500 CbUpdateProductionInterface]
  /\ audios (page (updateProductionInterface w)) = audios (page w)
  /\ isProductionMode (appState (updateProductionInterface w))
     = isProductionMode (appState w)
  /\ sameSetting w (updateProductionInterface w).
Proof.
  intros Hline Hpass. unfold updateProductionInterface, passedAtOnce in *.
  rewrite (productionLine_in_range w l Hline), Hline.
  destruct (playRecordings (page w)
            && Js.Set_has (recordCharacters (appState w)) (character l)).
  - destruct (recordingFor w (character l) (number l)); [discriminate |].
    unfold advanceProductionLine, recognition_stop, productionIndex.
    destruct w as [a p]. destruct a as [? ? ? ? ? ? ? ? ? ? ? rec ? ? ?]. simpl.
    destruct rec; simpl; repeat split.
  - apply negb_true_iff in Hpass. rewrite Hpass.
    unfold advanceProductionLine, recognition_stop, productionIndex.
    destruct w as [a p]. destruct a as [? ? ? ? ? ? ? ? ? ? ? rec ? ? ?]. simpl.
    destruct rec; simpl; repeat split.
Qed.

Lemma updateProductionInterface_end_frame (w : World) :
  length (dialogueLines (appState w)) <= productionIndex w ->
  timers (page w) = [] ->
  timers (page (updateProductionInterface w)) = []
  /\ sameSetting w (updateProductionInterface w).
Proof.
  intros Hend Ht. unfold updateProductionInterface.
  apply Nat.leb_le in Hend. unfold productionIndex in Hend. rewrite Hend.
  unfold showStatusMessage, clear_speechTimeout, recognition_stop.
  destruct w as [a p]. destruct a as [? ? ? ? ? ? ? ? ? ? ? rec ? ? tmo].
  destruct p. simpl in *. subst.
  destruct rec, tmo; simpl; repeat split.
Qed.

End Setting.

(** A production none of whose lines is played or waited on runs to its end
    by itself: started with no timer pending on a script of n lines, it is
    finished after the n queued interface updates have fired, with the
    index at n, production mode off, no timer left and no audio started. *)
Theorem unattended_production_finishes (w : World)
    (Htimers : timers (page w) = [])
    (Hpass : Forall (fun l => passedAtOnce w l = true) (dialogueLines (appState w))) :
  let w' := fireMany (length (dialogueLines (appState w))) (startProduction w) in
  productionIndex w' = length (dialogueLines (appState w))
  /\ isProductionMode (appState w') = false
  /\ timers (page w') = []
  /\ audios (page w') = audios (page w).
Proof.
  set (n := length (dialogueLines (appState w))).
  (* the walk under way: index k, the update for line k pending *)
  assert (Hrun : forall m k w1,
            k + m = n -> 0 < k ->
            sameSetting w w1 ->
            productionIndex w1 = k ->
            (exists id, timers (page w1) = [mkTimer id 500 CbUpdateProductionInterface]) ->
            audios (page w1) = audios (page w) ->
            productionIndex (fireMany (S m) w1) = n
            /\ isProductionMode (appState (fireMany (S m) w1)) = false
            /\ timers (page (fireMany (S m) w1)) = []
            /\ audios (page (fireMany (S m) w1)) = audios (page w)).
  { induction m as [| m IH]; intros k w1 Hk Hpos Hset Hidx (id & Ht) Ha;
      assert (Hfire : fireNext w1 = updateProductionInterface (clearTimeout id w1))
        by (unfold fireNext, step; rewrite Ht; simpl; now rewrite Nat.eqb_refl);
      [change (fireMany 1 w1) with (fireNext w1)
      | change (fireMany (S (S m)) w1) with (fireMany (S m) (fireNext w1))];
      rewrite Hfire;
      set (w2 := clearTimeout id w1);
      assert (Ht2 : timers (page w2) = [])
        by (unfold w2; simpl; rewrite Ht; simpl; now rewrite Nat.eqb_refl);
      assert (Hset2 : sameSetting w w2) by exact Hset;
      assert (Hidx2 : productionIndex w2 = k) by exact Hidx;
      assert (Ha2 : audios (page w2) = audios (page w)) by exact Ha;
      pose proof Hset as (Hl & _).
    - (* the last update: the script is finished *)
      assert (Hend : length (dialogueLines (appState w2)) <= productionIndex w2).
      { change (dialogueLines (appState w2)) with (dialogueLines (appState w1)).
        rewrite Hl. fold n. lia. }
      destruct (updateProductionInterface_at_end w2 Hend)
        as (Hmode & Hi & _ & Haud & _).
      destruct (updateProductionInterface_end_frame w2 Hend Ht2) as [Htm _].
      repeat split; [lia | exact Hmode | exact Htm | congruence].
    - (* a line that is passed at once *)
      assert (Hlt : k < n) by lia.
      destruct (nth_error (dialogueLines (appState w)) k) as [l |] eqn:Hn;
        [| apply nth_error_None in Hn; fold n in Hn; lia].
      assert (Hline : productionLine w2 = Some l).
      { unfold productionLine.
        change (dialogueLines (appState w2)) with (dialogueLines (appState w1)).
        change (productionLineIndex (appState w2)) with (productionIndex w1).
        now rewrite Hl, Hidx. }
      assert (Hp : passedAtOnce w2 l = true).
      { rewrite (passedAtOnce_sameSetting w w2 l Hset2).
        apply (proj1 (List.Forall_forall _ _) Hpass).
        now apply nth_error_In in Hn. }
      destruct (updateProductionInterface_passes w2 l Hline Hp)
        as (Hi & Htm & Haud & _ & Hset3).
      apply (IH (k + 1) (updateProductionInterface w2)).
      + lia.
      + lia.
      + now apply (sameSetting_trans w w2).
      + lia.
      + rewrite Htm, Ht2. now eexists.
      + congruence. }
  unfold startProduction.
  set (w0 := upd_app (with_productionLineIndex 0)
               (upd_app (with_isProductionMode true) w)).
  assert (Hset0 : sameSetting w w0) by (repeat split).
  destruct (dialogueLines (appState w)) as [| l0 ls] eqn:Hlines.
  - (* an empty script *)
    assert (Hend : length (dialogueLines (appState w0)) <= productionIndex w0).
    { change (dialogueLines (appState w0)) with (dialogueLines (appState w)).
      rewrite Hlines. simpl. lia. }
    destruct (updateProductionInterface_at_end w0 Hend) as (Hmode & Hi & _ & Haud & _).
    destruct (updateProductionInterface_end_frame w0 Hend Htimers) as [Htm _].
    simpl. repeat split; assumption.
  - assert (Hline : productionLine w0 = Some l0).
    { unfold productionLine.
      change (dialogueLines (appState w0)) with (dialogueLines (appState w)).
      now rewrite Hlines. }
    assert (Hp : passedAtOnce w0 l0 = true).
    { rewrite (passedAtOnce_sameSetting w w0 l0 Hset0).
      inversion Hpass; assumption. }
    destruct (updateProductionInterface_passes w0 l0 Hline Hp)
      as (Hi & Htm & Haud & _ & Hset1).
    unfold n. simpl length.
    apply (Hrun (length ls) 1
             (showStatusMessage "Production started" (updateProductionInterface w0))).
    + unfold n. rewrite ?Hlines. simpl. lia.
    + lia.
    + exact Hset1.
    + exact Hi.
    + simpl. rewrite Htm. change (timers (page w0)) with (timers (page w)).
      rewrite Htimers. now eexists.
    + exact Haud.
Qed.

Section ModeFlag.

(** [updateProductionInterface] never turns production mode on. *)
Lemma updateProductionInterface_mode_off (w : World) :
  isProductionMode (appState w) = false ->
  isProductionMode (appState (updateProductionInterface w)) = false.
Proof.
  intros Hoff. unfold updateProductionInterface.
  destruct (length (dialogueLines (appState w)) <=? productionLineIndex (appState w)).
  - unfold showStatusMessage, clear_speechTimeout, recognition_stop.
    destruct w as [a p]. destruct a as [? ? ? ? ? ? ? ? ? ? ? rec ? ? tmo]. simpl.
    destruct rec, tmo; reflexivity.
  - destruct (productionLine w) as [l |]; [| exact Hoff].
    unfold advanceProductionLine, recognition_try_start, recognition_stop,
      recordingFor.
    destruct w as [a p]. destruct a as [? ? ? ? ? recs ? ? ? ? ? rec ? ? ?].
    simpl in *.
    destruct (playRecordings p && Js.Set_has _ _).
    + destruct (recs !! character l) as [m |]; [destruct (m !! number l) |];
        destruct rec; simpl; exact Hoff.
    + destruct (liveSpeaking p && Js.Set_has _ _); destruct rec; simpl; exact Hoff.
Qed.

(** The play branch of [updateProductionInterface]. *)
Lemma updateProductionInterface_play_branch
    (w : World) (l : DialogueLine) (clip : Blob) :
  productionLine w = Some l ->
  playRecordings (page w)
    && Js.Set_has (recordCharacters (appState w)) (character l) = true ->
  recordingFor w (character l) (number l) = Some clip ->
  updateProductionInterface w
  = set_statusText "Playing recorded audio" (playAudioBlob clip w).
Proof.
  intros Hline Hplay Hclip. unfold updateProductionInterface.
  now rewrite (productionLine_in_range w l Hline), Hline, Hplay, Hclip.
Qed.

End ModeFlag.

(** Pause stops the listening, not the walk.  With production mode off (and
    no recording running) a recognition result only cancels the pending
    speech timeout, and the end of recognition, the 30-second callback and
    the restart callback do nothing.  But an interface update that was
    queued still runs: it passes a line that is passed at once, it starts
    the clip of a recorded line, and a clip that ends still moves the index
    on. *)
Theorem paused_walk_goes_on (w : World)
    (Hpaused : isProductionMode (appState w) = false)
    (Hrec : isRecording (appState w) = false) :
  (forall transcript, recognition_onresult transcript w = clear_speechTimeout w)
  /\ recognition_onend w = w
  /\ speechTimeout_callback w = w
  /\ restartRecognition_callback w = w
  /\ (forall l, productionLine w = Some l -> passedAtOnce w l = true ->
        productionIndex (updateProductionInterface w) = productionIndex w + 1)
  /\ (forall l clip,
        productionLine w = Some l ->
        playRecordings (page w)
          && Js.Set_has (recordCharacters (appState w)) (character l) = true ->
        recordingFor w (character l) (number l) = Some clip ->
        audios (page (updateProductionInterface w)) = audios (page w) ++ [clip])
  /\ productionIndex (audio_onended w) = productionIndex w + 1.
Proof.
  repeat apply conj.
  - intros transcript. unfold recognition_onresult.
    destruct (clear_speechTimeout_frame w) as (-> & -> & _).
    now rewrite Hpaused, Hrec.
  - unfold recognition_onend. now rewrite Hpaused.
  - unfold speechTimeout_callback. now rewrite Hpaused.
  - unfold restartRecognition_callback. now rewrite Hpaused.
  - intros l Hline Hpass.
    now destruct (updateProductionInterface_passes w l Hline Hpass).
  - intros l clip Hline Hplay Hclip.
    now rewrite (updateProductionInterface_play_branch w l clip).
  - apply index_advanceProductionLine.
Qed.

(** "Stop" turns production mode off, sets the index to 0 and cancels the
    speech timeout, and then updates the interface, which handles the first
    line as in a running production.  So after a stop production mode is
    off and the index is 0 or 1; on an empty script nothing else happens;
    but a first line that is passed at once is passed (index 1, the next
    update queued), and the clip of a recorded first line starts playing. *)
Theorem stopProduction_handles_first_line (w : World) :
  isProductionMode (appState (stopProduction w)) = false
  /\ productionIndex (stopProduction w) <= 1
  /\ (dialogueLines (appState w) = [] ->
      productionIndex (stopProduction w) = 0
      /\ audios (page (stopProduction w)) = audios (page w))
  /\ (forall l,
        nth_error (dialogueLines (appState w)) 0 = Some l ->
        passedAtOnce w l = true ->
        productionIndex (stopProduction w) = 1
        /\ exists id, In (mkTimer id 500 CbUpdateProductionInterface)
                         (timers (page (stopProduction w))))
  /\ (forall l clip,
        nth_error (dialogueLines (appState w)) 0 = Some l ->
        playRecordings (page w)
          && Js.Set_has (recordCharacters (appState w)) (character l) = true ->
        recordingFor w (character l) (number l) = Some clip ->
        productionIndex (stopProduction w) = 0
        /\ audios (page (stopProduction w)) = audios (page w) ++ [clip]).
Proof.
  unfold stopProduction.
  set (w0 := clear_speechTimeout
               (recognition_stop
                  (upd_app (with_productionLineIndex 0)
                     (upd_app (with_isProductionMode false) w)))).
  assert (H0 : sameSetting w w0
               /\ productionIndex w0 = 0
               /\ isProductionMode (appState w0) = false
               /\ audios (page w0) = audios (page w)).
  { unfold w0, clear_speechTimeout, recognition_stop, sameSetting, productionIndex.
    destruct w as [a p]. destruct a as [? ? ? ? ? ? ? ? ? ? ? rec ? ? tmo]. simpl.
    destruct rec, tmo; simpl; repeat split. }
  destruct H0 as (Hset & Hidx & Hmode & Haud).
  pose proof Hset as (Hl & Hr & Hs & Ha & Hp & Hv).
  repeat apply conj.
  - simpl. now apply updateProductionInterface_mode_off.
  - change (productionIndex (updateProductionInterface w0) <= 1).
    destruct (index_updateProductionInterface w0) as [-> | ->]; lia.
  - intros Hempty.
    assert (Hend : length (dialogueLines (appState w0)) <= productionIndex w0)
      by (rewrite Hl, Hempty; simpl; lia).
    destruct (updateProductionInterface_at_end w0 Hend) as (_ & Hi & _ & Hau & _).
    split.
    + change (productionIndex (updateProductionInterface w0) = 0). lia.
    + change (audios (page (updateProductionInterface w0)) = audios (page w)).
      congruence.
  - intros l Hn Hpass.
    assert (Hline : productionLine w0 = Some l).
    { unfold productionLine. rewrite Hl. unfold productionIndex in Hidx.
      now rewrite Hidx. }
    rewrite <- (passedAtOnce_sameSetting w w0 l Hset) in Hpass.
    destruct (updateProductionInterface_passes w0 l Hline Hpass)
      as (Hi & Htm & _).
    split; [change (productionIndex (updateProductionInterface w0) = 1); lia |].
    eexists. simpl. rewrite Htm. apply in_or_app. right. now left.
  - intros l clip Hn Hplay Hclip.
    assert (Hline : productionLine w0 = Some l).
    { unfold productionLine. rewrite Hl. unfold productionIndex in Hidx.
      now rewrite Hidx. }
    rewrite (updateProductionInterface_play_branch w0 l clip Hline).
    + split; [exact Hidx | simpl; now rewrite Haud].
    + now rewrite Hp, Hr.
    + unfold recordingFor in *. now rewrite Ha.
Qed.

Section Timers.

Lemma timersOk_same (w w' : World) :
  timers (page w') = timers (page w) ->
  nextTimerId (page w') = nextTimerId (page w) ->
  speechTimeout (appState w') = speechTimeout (appState w) ->
  timersOk w -> timersOk w'.
Proof. unfold timersOk. intros -> -> ->. auto. Qed.

Lemma NoDup_map_filter {A B : Type} (f : A -> B) (p : A -> bool) (l : list A) :
  List.NoDup (map f l) -> List.NoDup (map f (List.filter p l)).
Proof.
  induction l as [| a l IH]; simpl; intros H; [constructor |].
  inversion H as [| x xs Hnot Hnd]; subst.
  destruct (p a); simpl; [| now apply IH].
  constructor; [| now apply IH].
  intros Hin. apply Hnot. apply in_map_iff in Hin.
  destruct Hin as (y & Hy & Hyin). apply filter_In in Hyin.
  apply in_map_iff. exists y. tauto.
Qed.

Lemma timersOk_clearTimeout (id : nat) (w : World) :
  timersOk w -> timersOk (clearTimeout id w).
Proof.
  intros (Hnd & Hlt & Hsp). unfold timersOk. simpl. repeat split.
  - now apply NoDup_map_filter.
  - intros t Ht. apply filter_In in Ht. now apply Hlt.
  - intros t Ht. apply filter_In in Ht. now apply Hsp.
Qed.

(** A new timer gets a fresh id. *)
Lemma timersOk_fresh (cb : Callback) (delay : N) (w : World) :
  timersOk w ->
  List.NoDup (map t_id (timers (page (snd (setTimeout cb delay w)))))
  /\ (forall t, In t (timers (page (snd (setTimeout cb delay w)))) ->
        t_id t < nextTimerId (page (snd (setTimeout cb delay w)))).
Proof.
  intros (Hnd & Hlt & _). simpl. split.
  - rewrite map_app. simpl. apply List.NoDup_app; [exact Hnd | |].
    + constructor; [intros [] | constructor].
    + intros a Ha [E | []]. apply in_map_iff in Ha.
      destruct Ha as (t & Et & Ht). specialize (Hlt t Ht). lia.
  - intros t Ht. apply in_app_or in Ht. destruct Ht as [Ht | [<- | []]].
    + specialize (Hlt t Ht). lia.
    + simpl. lia.
Qed.

Lemma timersOk_setTimeout (cb : Callback) (delay : N) (w : World) :
  cb <> CbSpeechTimeout ->
  timersOk w -> timersOk (snd (setTimeout cb delay w)).
Proof.
  intros Hcb Hok. destruct (timersOk_fresh cb delay w Hok) as [Hnd Hlt].
  split; [exact Hnd |]. split; [exact Hlt |].
  destruct Hok as (_ & _ & Hsp). simpl.
  intros t Ht Hs. apply in_app_or in Ht. destruct Ht as [Ht | [<- | []]].
  - now apply Hsp.
  - unfold isSpeechTimeout in Hs. simpl in Hs. destruct cb; congruence.
Qed.

Lemma timersOk_recognition_stop (w : World) :
  timersOk w -> timersOk (recognition_stop w).
Proof.
  apply timersOk_same; unfold recognition_stop;
    destruct (recognition (appState w)); reflexivity.
Qed.

Lemma timersOk_recognition_try_start (w : World) :
  timersOk w -> timersOk (recognition_try_start w).
Proof.
  apply timersOk_same; unfold recognition_try_start;
    destruct (recognition (appState w)); reflexivity.
Qed.

Lemma timersOk_clear_speechTimeout (w : World) :
  timersOk w -> timersOk (clear_speechTimeout w).
Proof.
  intros Hok. unfold clear_speechTimeout.
  destruct (speechTimeout (appState w)) as [id |] eqn:Hid; [| exact Hok].
  destruct (timersOk_clearTimeout id w Hok) as (Hnd & Hlt & _).
  split; [exact Hnd |]. split; [exact Hlt |].
  destruct Hok as (_ & _ & Hsp). simpl.
  intros t Ht Hs. apply filter_In in Ht. destruct Ht as [Ht Hne].
  specialize (Hsp t Ht Hs). rewrite Hid in Hsp. injection Hsp as ->.
  rewrite Nat.eqb_refl in Hne. discriminate.
Qed.

Lemma timersOk_advanceProductionLine (w : World) :
  timersOk w -> timersOk (advanceProductionLine w).
Proof.
  intros Hok. unfold advanceProductionLine.
  apply timersOk_setTimeout; [discriminate |].
  apply (timersOk_same (recognition_stop w)); try reflexivity.
  now apply timersOk_recognition_stop.
Qed.

Lemma timersOk_updateProductionInterface (w : World) :
  timersOk w -> timersOk (updateProductionInterface w).
Proof.
  intros Hok. unfold updateProductionInterface.
  destruct (length (dialogueLines (appState w)) <=? productionLineIndex (appState w)).
  - apply (timersOk_same
             (clear_speechTimeout
                (recognition_stop (upd_app (with_isProductionMode false) w))));
      try reflexivity.
    apply timersOk_clear_speechTimeout, timersOk_recognition_stop.
    now apply (timersOk_same w).
  - destruct (productionLine w) as [l |]; [| exact Hok].
    destruct (playRecordings (page w) && Js.Set_has _ _).
    + destruct (recordingFor w (character l) (number l)).
      * now apply (timersOk_same w).
      * apply timersOk_advanceProductionLine. now apply (timersOk_same w).
    + destruct (liveSpeaking (page w) && Js.Set_has _ _).
      * apply timersOk_recognition_try_start. now apply (timersOk_same w).
      * apply timersOk_advanceProductionLine. now apply (timersOk_same w).
Qed.

Lemma timersOk_stopRecording (w : World) :
  timersOk w -> timersOk (stopRecording w).
Proof.
  intros Hok. unfold stopRecording.
  destruct (mediaRecorder (appState w)); [| exact Hok].
  destruct (isRecording (appState w)); [| exact Hok].
  apply timersOk_setTimeout; [discriminate |].
  apply (timersOk_same (recognition_stop (upd_app (with_isRecording false) w)));
    try reflexivity.
  apply timersOk_recognition_stop. now apply (timersOk_same w).
Qed.

Lemma timersOk_nextLine (w : World) :
  timersOk w -> timersOk (world_of (nextLine w)).
Proof.
  apply timersOk_same; unfold nextLine, updateRecordingInterface;
    repeat match goal with
           | |- context [if ?b then _ else _] => destruct b
           | |- context [match currentLine ?x with _ => _ end] =>
               destruct (currentLine x)
           end; reflexivity.
Qed.

Lemma timersOk_recognition_onresult (transcript : string) (w : World) :
  timersOk w -> timersOk (recognition_onresult transcript w).
Proof.
  intros Hok. apply timersOk_clear_speechTimeout in Hok.
  unfold recognition_onresult.
  set (w1 := clear_speechTimeout w) in *.
  destruct (isRecording (appState w1) && _); [now apply timersOk_stopRecording |].
  destruct (isProductionMode (appState w1) && _);
    [now apply timersOk_advanceProductionLine |].
  destruct (isProductionMode (appState w1)); [| exact Hok].
  destruct (productionLine w1) as [l |]; [| exact Hok].
  destruct (Js.Set_has _ _); [| exact Hok].
  destruct (speechMatchesDialogue l _); [| exact Hok].
  apply timersOk_setTimeout; [discriminate | exact Hok].
Qed.

(** [onend] cancels the speech timeout it had armed before arming the new
    one. *)
Lemma timersOk_recognition_onend (w : World) :
  timersOk w -> timersOk (recognition_onend w).
Proof.
  intros Hok. unfold recognition_onend.
  destruct (isProductionMode (appState w) && currentIsSpeak w); [| exact Hok].
  set (w1 := match speechTimeout (appState w) with
             | Some id => clearTimeout id w
             | None => w
             end).
  assert (Hok1 : timersOk w1 /\
                 forall t, In t (timers (page w1)) -> isSpeechTimeout t = false).
  { unfold w1. destruct (speechTimeout (appState w)) as [id |] eqn:Hid.
    - split; [now apply timersOk_clearTimeout |].
      intros t Ht. simpl in Ht. apply filter_In in Ht. destruct Ht as [Ht Hne].
      destruct (isSpeechTimeout t) eqn:Hs; [| reflexivity].
      destruct Hok as (_ & _ & Hsp). specialize (Hsp t Ht Hs).
      rewrite Hid in Hsp. injection Hsp as ->.
      rewrite Nat.eqb_refl in Hne. discriminate.
    - split; [exact Hok |]. intros t Ht.
      destruct (isSpeechTimeout t) eqn:Hs; [| reflexivity].
      destruct Hok as (_ & _ & Hsp). specialize (Hsp t Ht Hs). congruence. }
  destruct Hok1 as [Hok1 Hnone].
  destruct (timersOk_fresh CbSpeechTimeout 30000 w1 Hok1) as [Hnd Hlt].
  change (timersOk
            (snd (setTimeout CbRestartRecognition 100
                    (upd_app (with_speechTimeout (Some (nextTimerId (page w1))))
                       (snd (setTimeout CbSpeechTimeout 30000 w1)))))).
  apply timersOk_setTimeout; [discriminate |].
  split; [exact Hnd |]. split; [exact Hlt |]. simpl.
  intros t Ht Hs. apply in_app_or in Ht. destruct Ht as [Ht | [<- | []]].
  - rewrite (Hnone t Ht) in Hs. discriminate.
  - reflexivity.
Qed.

Lemma timersOk_run_callback (cb : Callback) (w : World) :
  timersOk w -> timersOk (run_callback cb w).
Proof.
  intros Hok. destruct cb; simpl.
  - now apply timersOk_updateProductionInterface.
  - now apply timersOk_advanceProductionLine.
  - unfold speechTimeout_callback. destruct (_ && _); [| exact Hok].
    now apply timersOk_advanceProductionLine.
  - unfold restartRecognition_callback. destruct (isProductionMode _); [| exact Hok].
    now apply timersOk_recognition_try_start.
  - now apply timersOk_nextLine.
Qed.

Lemma timersOk_step (w : World) (e : Event) :
  timersOk w -> timersOk (step w e).
Proof.
  intros Hok. destruct e; simpl.
  - unfold startProduction.
    apply (timersOk_same
             (updateProductionInterface
                (upd_app (with_productionLineIndex 0)
                   (upd_app (with_isProductionMode true) w)))); try reflexivity.
    apply timersOk_updateProductionInterface. now apply (timersOk_same w).
  - now apply (timersOk_same w).
  - unfold stopProduction.
    apply (timersOk_same
             (updateProductionInterface
                (clear_speechTimeout
                   (recognition_stop
                      (upd_app (with_productionLineIndex 0)
                         (upd_app (with_isProductionMode false) w))))));
      try reflexivity.
    apply timersOk_updateProductionInterface, timersOk_clear_speechTimeout,
      timersOk_recognition_stop.
    now apply (timersOk_same w).
  - destruct (List.find _ _); [| exact Hok].
    apply timersOk_run_callback. now apply timersOk_clearTimeout.
  - destruct (nth_error _ _); [| exact Hok].
    apply timersOk_advanceProductionLine. now apply (timersOk_same w).
  - destruct (nth_error _ _); [| exact Hok].
    apply timersOk_advanceProductionLine. now apply (timersOk_same w).
  - now apply timersOk_recognition_onresult.
  - now apply timersOk_recognition_onend.
Qed.

(** With distinct ids, at most one pending timer can carry a given id. *)
Lemma speech_timers_at_most_one (ts : list Timer) (id : nat) :
  List.NoDup (map t_id ts) ->
  (forall t, In t ts -> isSpeechTimeout t = true -> t_id t = id) ->
  length (List.filter isSpeechTimeout ts) <= 1.
Proof.
  induction ts as [| a ts IH]; simpl; intros Hnd Hid; [lia |].
  inversion Hnd as [| x xs Hnot Hnd']; subst.
  destruct (isSpeechTimeout a) eqn:Ha.
  - assert (Hrest : List.filter isSpeechTimeout ts = []).
    { destruct (List.filter isSpeechTimeout ts) as [| b bs] eqn:Hf; [reflexivity |].
      assert (Hb : In b (List.filter isSpeechTimeout ts)) by (rewrite Hf; now left).
      apply filter_In in Hb. destruct Hb as [Hb Hbs].
      exfalso. apply Hnot. apply in_map_iff. exists b. split; [| exact Hb].
      rewrite (Hid a (or_introl eq_refl) Ha). apply Hid; [now right | exact Hbs]. }
    rewrite Hrest. simpl. lia.
  - apply IH; [exact Hnd' |]. intros t Ht. apply Hid. now right.
Qed.

End Timers.

(** At most one speech timeout.  From a page whose timers are in order (for
    instance one with no timer pending), after any run of production events
    (the buttons included) timer ids are still distinct, at most one
    30-second speech timeout is pending, and when one is pending
    [appState.speechTimeout] holds its id: [onend] cancels the old one
    before it arms a new one. *)
Theorem one_speech_timeout_pending (w : World) (events : list Event)
    (Hok : timersOk w) :
  timersOk (run w events)
  /\ length (List.filter isSpeechTimeout (timers (page (run w events)))) <= 1
  /\ (forall t, In t (timers (page (run w events))) ->
        isSpeechTimeout t = true ->
        speechTimeout (appState (run w events)) = Some (t_id t)).
Proof.
  assert (H : timersOk (run w events)).
  { revert w Hok. unfold run.
    induction events as [| e es IH]; intros w Hok; [exact Hok |].
    simpl. apply IH, timersOk_step, Hok. }
  split; [exact H |]. destruct H as (Hnd & _ & Hsp). split; [| exact Hsp].
  destruct (speechTimeout (appState (run w events))) as [id |] eqn:Hid.
  - apply (speech_timers_at_most_one _ id Hnd).
    intros t Ht Hs. specialize (Hsp t Ht Hs). congruence.
  - apply (speech_timers_at_most_one _ 0 Hnd).
    intros t Ht Hs. specialize (Hsp t Ht Hs). congruence.
Qed.

(** ** Facts about the WAV writer *)

Module WavFacts.

Import QArith.
Import Wav.
Local Open Scope nat_scope.

Lemma littleEndian_length (n : nat) (v : Z) : length (littleEndian n v) = n.
Proof. revert v. induction n as [| n IH]; intros v; simpl; [reflexivity | now rewrite IH]. Qed.

(** A store over the bytes [old] that follow the prefix [pre]. *)
Lemma store_app (pre old rest bytes : list Z) (offset : nat) :
  offset = length pre ->
  length old = length bytes ->
  store offset bytes (pre ++ old ++ rest) = Some (pre ++ bytes ++ rest).
Proof.
  intros -> Hlen. unfold store.
  assert (Hfit : (length pre + length bytes <=? length (pre ++ old ++ rest)) = true).
  { apply Nat.leb_le. rewrite !length_app. lia. }
  rewrite Hfit. f_equal.
  rewrite firstn_app, Nat.sub_diag, firstn_all. simpl. rewrite app_nil_r.
  f_equal. f_equal.
  rewrite skipn_app, skipn_all2 by lia. simpl.
  replace (length pre + length bytes - length pre) with (length old) by lia.
  rewrite skipn_app, skipn_all, Nat.sub_diag. reflexivity.
Qed.

Lemma nat_of_ascii_byte (c : ascii) :
  (Z.of_nat (nat_of_ascii c) mod 256 = Z.of_nat (nat_of_ascii c))%Z.
Proof.
  apply Z.mod_small. pose proof (nat_ascii_bounded c). lia.
Qed.

Lemma writeString_app (s : string) :
  forall (pre old rest : list Z) (offset : nat),
    offset = length pre ->
    length old = String.length s ->
    writeString offset s (pre ++ old ++ rest) = Some (pre ++ tag s ++ rest).
Proof.
  induction s as [| c s IH]; intros pre old rest offset Hoff Hlen; simpl in *.
  - destruct old; [reflexivity | discriminate].
  - destruct old as [| o old]; [discriminate |].
    unfold setUint8. simpl littleEndian.
    change (pre ++ (o :: old) ++ rest) with (pre ++ [o] ++ (old ++ rest)).
    rewrite (store_app pre [o] (old ++ rest)
               [(Z.of_nat (nat_of_ascii c) mod 256)%Z] offset Hoff eq_refl).
    simpl. rewrite nat_of_ascii_byte.
    specialize (IH (pre ++ [Z.of_nat (nat_of_ascii c)]) old rest (offset + 1)).
    rewrite <- !app_assoc in IH. simpl in IH. unfold tag in *. simpl.
    apply IH; [rewrite length_app; simpl; lia | injection Hlen; auto].
Qed.

(** The inner loop fills the two bytes of each channel in turn. *)
Lemma writeChannels (ab : AudioBuffer) (i : nat) (chans : list nat) :
  forall (pre old rest : list Z) (offset : nat),
    offset = length pre ->
    length old = 2 * length chans ->
    fold_left
      (fun acc channel =>
         '(offset, view) ← acc;
         view' ← setInt16 offset (sample16 (getChannelData ab channel i)) view;
         Some (offset + 2, view'))
      chans (Some (offset, pre ++ old ++ rest))
    = Some (offset + 2 * length chans,
            pre ++ flat_map (fun channel =>
                               littleEndian 2 (sample16 (getChannelData ab channel i)))
                            chans
                ++ rest).
Proof.
  induction chans as [| ch chans IH]; intros pre old rest offset Hoff Hlen.
  - destruct old; [| simpl in Hlen; lia]. simpl. f_equal. f_equal. lia.
  - destruct old as [| o1 [| o2 old]];
      [simpl in Hlen; lia | simpl in Hlen; lia |].
    cbn [fold_left mbind option_bind]. unfold setInt16.
    change (pre ++ (o1 :: o2 :: old) ++ rest)
      with (pre ++ [o1; o2] ++ (old ++ rest)).
    rewrite (store_app pre [o1; o2] (old ++ rest)
               (littleEndian 2 (sample16 (getChannelData ab ch i))) offset Hoff)
      by (now rewrite littleEndian_length).
    cbn [mbind option_bind].
    specialize (IH (pre ++ littleEndian 2 (sample16 (getChannelData ab ch i)))
                  old rest (offset + 2)).
    rewrite <- !app_assoc in IH. unfold setInt16 in IH. rewrite IH.
    + cbn [flat_map length]. rewrite <- !app_assoc. f_equal. f_equal. lia.
    + rewrite length_app, littleEndian_length. lia.
    + simpl in Hlen. lia.
Qed.

Lemma frameBytes_length (ab : AudioBuffer) (i : nat) :
  length (frameBytes ab i) = 2 * numberOfChannels ab.
Proof.
  unfold frameBytes.
  rewrite <- (length_seq (numberOfChannels ab) 0) at 2.
  induction (seq 0 (numberOfChannels ab)) as [| c cs IH]; [reflexivity |].
  cbn [flat_map]. rewrite length_app, littleEndian_length, IH. simpl. lia.
Qed.

Lemma sampleBytes_length (ab : AudioBuffer) :
  length (sampleBytes ab) = 2 * numberOfChannels ab * frames ab.
Proof.
  unfold sampleBytes.
  rewrite <- (length_seq (frames ab) 0) at 2.
  induction (seq 0 (frames ab)) as [| c cs IH]; [simpl; lia |].
  cbn [flat_map]. rewrite length_app, frameBytes_length, IH. simpl. lia.
Qed.

(** The outer loop fills the frames in turn. *)
Lemma writeFrames (ab : AudioBuffer) (frs : list nat) :
  forall (pre old rest : list Z) (offset : nat),
    offset = length pre ->
    length old = 2 * numberOfChannels ab * length frs ->
    fold_left (fun acc i => st' ← acc; writeFrame ab i st')
              frs (Some (offset, pre ++ old ++ rest))
    = Some (offset + 2 * numberOfChannels ab * length frs,
            pre ++ flat_map (frameBytes ab) frs ++ rest).
Proof.
  induction frs as [| i frs IH]; intros pre old rest offset Hoff Hlen.
  - destruct old; [| simpl in Hlen; lia]. simpl. f_equal. f_equal. lia.
  - cbn [fold_left mbind option_bind]. unfold writeFrame.
    rewrite <- (firstn_skipn (2 * numberOfChannels ab) old), <- app_assoc.
    rewrite (writeChannels ab i (seq 0 (numberOfChannels ab)) pre _ _ offset Hoff).
    + rewrite length_seq.
      specialize (IH (pre ++ frameBytes ab i)
                    (skipn (2 * numberOfChannels ab) old) rest
                    (offset + 2 * numberOfChannels ab)).
      rewrite <- !app_assoc in IH. unfold frameBytes in IH at 2.
      unfold writeFrame in IH. rewrite IH.
      * cbn [flat_map length]. rewrite <- !app_assoc. f_equal. f_equal. lia.
      * rewrite length_app, frameBytes_length. lia.
      * rewrite length_skipn. simpl in Hlen. lia.
    + rewrite length_seq, length_firstn. simpl in Hlen. lia.
Qed.

Lemma store_step (pre old rest bytes : list Z) (offset : nat) :
  offset = length pre ->
  length old = length bytes ->
  store offset bytes (pre ++ old ++ rest) = Some ((pre ++ bytes) ++ rest).
Proof. intros. rewrite <- app_assoc. now apply store_app. Qed.

Lemma writeString_step (s : string) (pre old rest : list Z) (offset : nat) :
  offset = length pre ->
  length old = String.length s ->
  writeString offset s (pre ++ old ++ rest) = Some ((pre ++ tag s) ++ rest).
Proof. intros. rewrite <- app_assoc. now apply writeString_app. Qed.

(** The thirteen stores of the header, followed by [k]. *)
Lemma header_written {T : Type} (ab : AudioBuffer) (rest : list Z)
    (k : list Z -> option T) :
  (view ← writeString 0 "RIFF" (repeat 0%Z 44 ++ rest);
   view ← setUint32 4 (36 + Z.of_nat (frames ab * numberOfChannels ab * 2))%Z view;
   view ← writeString 8 "WAVE" view;
   view ← writeString 12 "fmt " view;
   view ← setUint32 16 16%Z view;
   view ← setUint16 20 1%Z view;
   view ← setUint16 22 (Z.of_nat (numberOfChannels ab)) view;
   view ← setUint32 24 (sampleRate ab) view;
   view ← setUint32 28 (sampleRate ab * Z.of_nat (numberOfChannels ab) * 2)%Z view;
   view ← setUint16 32 (Z.of_nat (numberOfChannels ab) * 2)%Z view;
   view ← setUint16 34 16%Z view;
   view ← writeString 36 "data" view;
   view ← setUint32 40 (Z.of_nat (frames ab * numberOfChannels ab * 2)) view;
   k view)
  = k (header ab ++ rest).
Proof.
  change (repeat 0%Z 44 ++ rest)
    with ([] ++ repeat 0%Z 4 ++ repeat 0%Z 4 ++ repeat 0%Z 4 ++ repeat 0%Z 4
          ++ repeat 0%Z 4 ++ repeat 0%Z 2 ++ repeat 0%Z 2 ++ repeat 0%Z 4
          ++ repeat 0%Z 4 ++ repeat 0%Z 2 ++ repeat 0%Z 2 ++ repeat 0%Z 4
          ++ repeat 0%Z 4 ++ rest).
  unfold setUint32, setUint16.
  repeat (first [ rewrite writeString_step by reflexivity
                | rewrite store_step by reflexivity ];
          cbn [mbind option_bind]).
  unfold header. rewrite <- !app_assoc. reflexivity.
Qed.

(** What the in-place stores leave: the header, then the samples. *)
Lemma audioBufferToBlob_bytes (ab : AudioBuffer) :
  audioBufferToBlob ab = Some (header ab ++ sampleBytes ab).
Proof.
  unfold audioBufferToBlob. rewrite repeat_app.
  rewrite (header_written ab).
  unfold writeSamples.
  rewrite <- (app_nil_r (repeat 0%Z (frames ab * numberOfChannels ab * 2))).
  rewrite (writeFrames ab (seq 0 (frames ab)) (header ab) _ [] 44 eq_refl).
  - cbn [mbind option_bind]. unfold sampleBytes. now rewrite app_nil_r.
  - rewrite repeat_length, length_seq. lia.
Qed.

Lemma header_length (ab : AudioBuffer) : length (header ab) = 44.
Proof. reflexivity. Qed.

Section Reading.

Lemma getUint_littleEndian (n : nat) (v : Z) (rest : list Z) :
  getUint n 0 (littleEndian n v ++ rest) = (v mod 256 ^ Z.of_nat n)%Z.
Proof.
  unfold getUint. change (skipn 0 (littleEndian n v ++ rest))
    with (littleEndian n v ++ rest).
  revert v. induction n as [| n IH]; intros v.
  - simpl. now rewrite Z.mod_1_r.
  - cbn [littleEndian firstn app fold_right]. rewrite IH.
    replace (256 ^ Z.of_nat (S n))%Z with (256 * 256 ^ Z.of_nat n)%Z
      by (rewrite Nat2Z.inj_succ, Z.pow_succ_r; lia).
    rewrite Z.rem_mul_r; [reflexivity | lia |].
    apply Z.pow_pos_nonneg; lia.
Qed.

Lemma getUint_skip (n k : nat) (pre rest : list Z) :
  k = length pre -> getUint n k (pre ++ rest) = getUint n 0 rest.
Proof.
  intros ->. unfold getUint.
  now rewrite skipn_app, skipn_all, Nat.sub_diag.
Qed.

Lemma littleEndian_bytes (n : nat) (v : Z) :
  Forall (fun b => (0 <= b < 256)%Z) (littleEndian n v).
Proof.
  revert v. induction n as [| n IH]; intros v; simpl; constructor.
  - apply Z.mod_pos_bound. lia.
  - apply IH.
Qed.

Lemma tag_bytes (s : string) : Forall (fun b => (0 <= b < 256)%Z) (tag s).
Proof.
  unfold tag. induction (list_ascii_of_string s) as [| c cs IH]; simpl; constructor.
  - pose proof (nat_ascii_bounded c). lia.
  - exact IH.
Qed.

Lemma frameBytes_bytes (ab : AudioBuffer) (i : nat) :
  Forall (fun b => (0 <= b < 256)%Z) (frameBytes ab i).
Proof.
  unfold frameBytes.
  induction (seq 0 (numberOfChannels ab)) as [| c cs IHc]; [constructor |].
  cbn [flat_map]. apply Forall_app. split; [apply littleEndian_bytes | exact IHc].
Qed.

Lemma sampleBytes_bytes (ab : AudioBuffer) :
  Forall (fun b => (0 <= b < 256)%Z) (sampleBytes ab).
Proof.
  unfold sampleBytes.
  induction (seq 0 (frames ab)) as [| i frs IH]; [constructor |].
  cbn [flat_map]. apply Forall_app. split; [apply frameBytes_bytes | exact IH].
Qed.

(** In a list of chunks of [m] bytes each, chunk [idx] starts at [m * idx]. *)
Lemma flat_map_skipn {A : Type} (f : A -> list Z) (m : nat) (d : A) :
  (forall x, length (f x) = m) ->
  forall (l : list A) (idx : nat),
    idx < length l ->
    exists rest, skipn (m * idx) (flat_map f l) = f (nth idx l d) ++ rest.
Proof.
  intros Hm. induction l as [| a l IH]; intros idx Hidx; [simpl in Hidx; lia |].
  destruct idx as [| idx].
  - rewrite Nat.mul_0_r. simpl. now eexists.
  - destruct (IH idx) as [rest Hrest]; [simpl in Hidx; lia |].
    exists rest. cbn [flat_map nth].
    replace (m * S idx) with (length (f a) + m * idx) by (rewrite Hm; lia).
    rewrite skipn_app.
    rewrite skipn_all2 by lia.
    replace (length (f a) + m * idx - length (f a)) with (m * idx) by lia.
    exact Hrest.
Qed.

(** Where the sample of frame [i], channel [c] is. *)
Lemma sample_position (ab : AudioBuffer) (i c : nat) :
  i < frames ab -> c < numberOfChannels ab ->
  exists rest,
    skipn (2 * (i * numberOfChannels ab + c)) (sampleBytes ab)
    = littleEndian 2 (sample16 (getChannelData ab c i)) ++ rest.
Proof.
  intros Hi Hc.
  destruct (flat_map_skipn (frameBytes ab) (2 * numberOfChannels ab) 0
              (frameBytes_length ab) (seq 0 (frames ab)) i) as [rest1 H1];
    [now rewrite length_seq |].
  rewrite seq_nth, Nat.add_0_l in H1 by exact Hi.
  destruct (flat_map_skipn
              (fun channel => littleEndian 2 (sample16 (getChannelData ab channel i)))
              2 0 (fun x => littleEndian_length 2 _)
              (seq 0 (numberOfChannels ab)) c) as [rest2 H2];
    [now rewrite length_seq |].
  rewrite seq_nth, Nat.add_0_l in H2 by exact Hc.
  exists (rest2 ++ rest1).
  replace (2 * (i * numberOfChannels ab + c))
    with (2 * c + 2 * numberOfChannels ab * i) by lia.
  rewrite <- List.skipn_skipn. unfold sampleBytes.
  rewrite H1. rewrite List.skipn_app.
  unfold frameBytes at 1. rewrite H2.
  replace (2 * c - length (frameBytes ab i)) with 0
    by (rewrite frameBytes_length; lia).
  simpl skipn. now rewrite <- app_assoc.
Qed.

End Reading.

Section Samples.

Lemma clamp_bounds (q : Q) : (-1 <= clamp q)%Q /\ (clamp q <= 1)%Q.
Proof.
  unfold clamp. destruct (Qle_bool 1 q) eqn:H1; [split; discriminate |].
  destruct (Qle_bool q (-1)) eqn:H2; [split; discriminate |].
  split.
  - apply Qlt_le_weak, Qnot_le_lt. intros H. apply Qle_bool_iff in H. congruence.
  - apply Qlt_le_weak, Qnot_le_lt. intros H. apply Qle_bool_iff in H. congruence.
Qed.

Lemma truncate_bound (q : Q) :
  (-1 <= q)%Q -> (q <= 1)%Q ->
  (-32767 <= truncate (q * 32767) <= 32767)%Z.
Proof.
  destruct q as [a b]. unfold Qle, truncate. simpl. rewrite Pos.mul_1_r.
  intros H1 H2.
  destruct (Z.le_gt_cases 0 a) as [Ha | Ha].
  - rewrite Z.quot_div_nonneg by lia. split.
    + transitivity 0%Z; [lia |]. apply Z.div_pos; lia.
    + apply Z.div_le_upper_bound; lia.
  - replace (a * 32767)%Z with (- (- a * 32767))%Z by lia.
    rewrite Z.quot_opp_l by lia.
    rewrite Z.quot_div_nonneg by lia.
    assert (0 <= (- a * 32767) / Z.pos b <= 32767)%Z; [| lia].
    split; [apply Z.div_pos; lia | apply Z.div_le_upper_bound; lia].
Qed.

Lemma sample16_bound (s : Sample) : (-32767 <= sample16 s <= 32767)%Z.
Proof.
  destruct s as [q | | |]; simpl; try lia.
  destruct (clamp_bounds q). now apply truncate_bound.
Qed.

End Samples.

(** The blob that [audioBufferToBlob] makes.  No store is out of range; the
    blob has 44 + 2 * frames * channels bytes, each in 0..255; it starts
    with the tags RIFF, WAVE, "fmt " and "data" in their places; and, read
    back little-endian, its header fields are the RIFF size 36 + data
    length, format 1, the channel count, the sample rate, the byte rate,
    the block align, 16 bits per sample and the data length (as 16- and
    32-bit values, so modulo 2^16 and 2^32). *)
Theorem audioBufferToBlob_layout (ab : AudioBuffer) :
  exists bytes,
    audioBufferToBlob ab = Some bytes
    /\ length bytes = 44 + 2 * frames ab * numberOfChannels ab
    /\ Forall (fun b => (0 <= b < 256)%Z) bytes
    /\ getTag 0 bytes = tag "RIFF"
    /\ getUint 4 4 bytes
       = ((36 + Z.of_nat (frames ab * numberOfChannels ab * 2)) mod 2 ^ 32)%Z
    /\ getTag 8 bytes = tag "WAVE"
    /\ getTag 12 bytes = tag "fmt "
    /\ getUint 4 16 bytes = 16%Z
    /\ getUint 2 20 bytes = 1%Z
    /\ getUint 2 22 bytes = (Z.of_nat (numberOfChannels ab) mod 2 ^ 16)%Z
    /\ getUint 4 24 bytes = (sampleRate ab mod 2 ^ 32)%Z
    /\ getUint 4 28 bytes
       = ((sampleRate ab * Z.of_nat (numberOfChannels ab) * 2) mod 2 ^ 32)%Z
    /\ getUint 2 32 bytes = ((Z.of_nat (numberOfChannels ab) * 2) mod 2 ^ 16)%Z
    /\ getUint 2 34 bytes = 16%Z
    /\ getTag 36 bytes = tag "data"
    /\ getUint 4 40 bytes
       = (Z.of_nat (frames ab * numberOfChannels ab * 2) mod 2 ^ 32)%Z.
Proof.
  exists (header ab ++ sampleBytes ab).
  split; [apply audioBufferToBlob_bytes |].
  split; [rewrite length_app, header_length, sampleBytes_length; lia |].
  split.
  { apply Forall_app. split; [| apply sampleBytes_bytes].
    unfold header.
    repeat (apply Forall_app; split);
      first [apply tag_bytes | apply littleEndian_bytes]. }
  set (d := sampleBytes ab).
  assert (Hat : forall (n k : nat) (v : Z) (pre post : list Z),
            header ab = pre ++ littleEndian n v ++ post ->
            k = length pre ->
            getUint n k (header ab ++ d) = (v mod 256 ^ Z.of_nat n)%Z).
  { intros n k v pre post Hh Hk. rewrite Hh, <- !app_assoc.
    rewrite (getUint_skip n k pre _ Hk). apply getUint_littleEndian. }
  unfold header in *.
  repeat split; try reflexivity;
    first
      [ eapply (Hat 4 4 _ (tag "RIFF")); [reflexivity | reflexivity]
      | eapply (Hat 2 22 _ (tag "RIFF" ++ littleEndian 4 _ ++ tag "WAVE" ++ tag "fmt "
                            ++ littleEndian 4 16 ++ littleEndian 2 1));
          [rewrite <- !app_assoc; reflexivity | reflexivity]
      | eapply (Hat 4 24 _ (tag "RIFF" ++ littleEndian 4 _ ++ tag "WAVE" ++ tag "fmt "
                            ++ littleEndian 4 16 ++ littleEndian 2 1
                            ++ littleEndian 2 _));
          [rewrite <- !app_assoc; reflexivity | reflexivity]
      | eapply (Hat 4 28 _ (tag "RIFF" ++ littleEndian 4 _ ++ tag "WAVE" ++ tag "fmt "
                            ++ littleEndian 4 16 ++ littleEndian 2 1
                            ++ littleEndian 2 _ ++ littleEndian 4 _));
          [rewrite <- !app_assoc; reflexivity | reflexivity]
      | eapply (Hat 2 32 _ (tag "RIFF" ++ littleEndian 4 _ ++ tag "WAVE" ++ tag "fmt "
                            ++ littleEndian 4 16 ++ littleEndian 2 1
                            ++ littleEndian 2 _ ++ littleEndian 4 _
                            ++ littleEndian 4 _));
          [rewrite <- !app_assoc; reflexivity | reflexivity]
      | eapply (Hat 4 40 _ (tag "RIFF" ++ littleEndian 4 _ ++ tag "WAVE" ++ tag "fmt "
                            ++ littleEndian 4 16 ++ littleEndian 2 1
                            ++ littleEndian 2 _ ++ littleEndian 4 _
                            ++ littleEndian 4 _ ++ littleEndian 2 _
                            ++ littleEndian 2 16 ++ tag "data") []);
          [rewrite <- !app_assoc, app_nil_r; reflexivity | reflexivity] ].
Qed.

(** The samples of the blob.  The 16-bit value read back at
    44 + 2 * (i * channels + c) is the sample of frame [i], channel [c]:
    frames in order, the channels of a frame side by side.  That value is
    the sample clamped to [-1, 1], times 32767, truncated towards zero: it
    lies in -32767..32767, is 32767 from 1 up (and for +Infinity), -32767
    from -1 down (and for -Infinity), and 0 for NaN. *)
Theorem audioBufferToBlob_samples (ab : AudioBuffer) (i c : nat)
    (Hi : i < frames ab) (Hc : c < numberOfChannels ab) :
  exists bytes,
    audioBufferToBlob ab = Some bytes
    /\ getInt16 (44 + 2 * (i * numberOfChannels ab + c)) bytes
       = sample16 (getChannelData ab c i)
    /\ (-32767 <= sample16 (getChannelData ab c i) <= 32767)%Z
    /\ (forall q, Qle 1%Q q -> sample16 (Finite q) = 32767%Z)
    /\ (forall q, Qle q (-1)%Q -> sample16 (Finite q) = (-32767)%Z)
    /\ sample16 NaN = 0%Z.
Proof.
  exists (header ab ++ sampleBytes ab).
  split; [apply audioBufferToBlob_bytes |].
  split; [| split; [apply sample16_bound |]].
  - destruct (sample_position ab i c Hi Hc) as [rest Hpos].
    pose proof (sample16_bound (getChannelData ab c i)) as Hb.
    unfold getInt16.
    assert (Hu : getUint 2 (44 + 2 * (i * numberOfChannels ab + c))
                   (header ab ++ sampleBytes ab)
                 = (sample16 (getChannelData ab c i) mod 256 ^ Z.of_nat 2)%Z).
    { unfold getUint.
      rewrite (Nat.add_comm 44), <- List.skipn_skipn.
      replace (skipn 44 (header ab ++ sampleBytes ab)) with (sampleBytes ab)
        by (rewrite List.skipn_app, (skipn_all2 (n := 44)) by (rewrite header_length; lia);
            now rewrite header_length).
      rewrite Hpos. apply (getUint_littleEndian 2). }
    rewrite Hu. change (256 ^ Z.of_nat 2)%Z with 65536%Z.
    destruct (Z.le_gt_cases 0 (sample16 (getChannelData ab c i))) as [Hs | Hs].
    + rewrite Z.mod_small by lia.
      destruct (sample16 (getChannelData ab c i) <? 32768)%Z eqn:E;
        [reflexivity | apply Z.ltb_ge in E; lia].
    + replace (sample16 (getChannelData ab c i) mod 65536)%Z
        with (sample16 (getChannelData ab c i) + 65536)%Z.
      * destruct (sample16 (getChannelData ab c i) + 65536 <? 32768)%Z eqn:E;
          [apply Z.ltb_lt in E; lia | lia].
      * apply Z.mod_unique with (q := (-1)%Z); [left; lia | lia].
  - repeat split.
    + intros q Hq. simpl. unfold clamp.
      apply Qle_bool_iff in Hq. now rewrite Hq.
    + intros q Hq. simpl. unfold clamp.
      destruct (Qle_bool 1 q) eqn:H1.
      * apply Qle_bool_iff in H1. exfalso.
        assert (H : Qle 1%Q (-1)%Q)
          by (eapply Qle_trans; eassumption).
        now apply H.
      * apply Qle_bool_iff in Hq. now rewrite Hq.
Qed.

End WavFacts.

(** ** Facts about the script upload *)

Section Upload.

Lemma length_append (a b : string) :
  String.length (a +:+ b) = String.length a + String.length b.
Proof. induction a as [| c a IH]; simpl; [reflexivity | now rewrite IH]. Qed.

Lemma substring_whole (b : string) : String.substring 0 (String.length b) b = b.
Proof. induction b as [| c b IH]; simpl; [reflexivity | now rewrite IH]. Qed.

Lemma substring_append (a b : string) :
  String.substring (String.length a) (String.length b) (a +:+ b) = b.
Proof. induction a as [| c a IH]; simpl; [apply substring_whole | exact IH]. Qed.

Lemma endsWith_append (a b : string) : Js.endsWith (a +:+ b) b = true.
Proof.
  unfold Js.endsWith. rewrite length_append.
  replace (String.length a + String.length b - String.length b)
    with (String.length a) by lia.
  rewrite substring_append, String.eqb_refl.
  apply andb_true_iff. split; [apply Nat.leb_le; lia | reflexivity].
Qed.

Lemma toLowerCase_length (s : string) :
  String.length (Js.toLowerCase s) = String.length s.
Proof. induction s as [| c s IH]; simpl; [reflexivity | now rewrite IH]. Qed.

End Upload.

(** Which files are accepted, and what the type changes.  A file is
    accepted when its name, lower-cased, ends in ".txt" or ".fountain": the
    extension may be written in any case, whatever comes before it; a name
    shorter than four characters is never accepted.  And the name plays no
    part in the parsing: the same text gives the same records and
    characters under any file name. *)
Theorem isSupportedFile_by_extension (base ext : string)
    (Hext : Js.toLowerCase ext = ".txt" \/ Js.toLowerCase ext = ".fountain") :
  isSupportedFile (base +:+ ext) = true
  /\ (forall name, isSupportedFile name = true -> 4 <= String.length name)
  /\ (forall text fileName fileName',
        parseDialogue text fileName = parseDialogue text fileName').
Proof.
  repeat apply conj.
  - unfold isSupportedFile. rewrite toLowerCase_app.
    destruct Hext as [-> | ->]; simpl existsb.
    + now rewrite endsWith_append.
    + rewrite endsWith_append. apply orb_true_r.
  - intros name H. unfold isSupportedFile in H. simpl in H.
    rewrite orb_false_r in H. unfold Js.endsWith in H.
    rewrite toLowerCase_length in H.
    apply orb_true_iff in H. destruct H as [H | H];
      apply andb_true_iff in H; destruct H as [H _];
      apply Nat.leb_le in H; simpl in H; lia.
  - reflexivity.
Qed.

(** ** The theorems at concrete inputs *)


Lemma parseDialogue_numbers_consecutive_witness :
  nth_error (lines (parseDialogue demoText "demo.txt")) 1
  = Some (mkLine 2 "JOHN" "I am fine. Thanks!")
  /\ number (mkLine 2 "JOHN" "I am fine. Thanks!") = 1 + 1.
Proof.
  assert (H : nth_error (lines (parseDialogue demoText "demo.txt")) 1
              = Some (mkLine 2 "JOHN" "I am fine. Thanks!")) by (vm_compute; reflexivity).
  split; [exact H |].
  exact (proj2 (parseDialogue_numbers_consecutive demoText "demo.txt") 1 _ H).
Defined.

Lemma parseDialogue_characters_exact_witness :
  In (mkLine 1 "SARAH" "Hello there, my friend.") (lines (parseDialogue demoText "demo.txt"))
  /\ In "SARAH" (characters (parseDialogue demoText "demo.txt")).
Proof.
  assert (H : In (mkLine 1 "SARAH" "Hello there, my friend.")
                 (lines (parseDialogue demoText "demo.txt")))
    by (vm_compute; left; reflexivity).
  split; [exact H |].
  apply (proj1 (parseDialogue_characters_exact demoText "demo.txt")).
  exists (mkLine 1 "SARAH" "Hello there, my friend."). split; [exact H | reflexivity].
Defined.

Lemma updateProductionInterface_auto_skip_witness :
  productionLine (demoWorld [] [] ∅ true true)
  = Some (mkLine 1 "SARAH" "Hello there, my friend.")
  /\ Js.Set_has [] "SARAH" = false
  /\ productionIndex (updateProductionInterface (demoWorld [] [] ∅ true true)) = 0 + 1
  /\ audios (page (updateProductionInterface (demoWorld [] [] ∅ true true))) = [].
Proof.
  split; [reflexivity |]. split; [reflexivity |].
  destruct (updateProductionInterface_auto_skip (demoWorld [] [] ∅ true true)
              (mkLine 1 "SARAH" "Hello there, my friend.") eq_refl eq_refl eq_refl)
    as (Hi & Ha & _).
  split; [exact Hi | exact Ha].
Defined.


Lemma live_line_advancement_witness :
  isProductionMode (appState (demoWorld [] ["SARAH"] ∅ true true)) = true
  /\ productionLine (demoWorld [] ["SARAH"] ∅ true true)
     = Some (mkLine 1 "SARAH" "Hello there, my friend.")
  /\ Js.Set_has ["SARAH"] "SARAH" = true
  /\ productionIndex (recognition_onresult "I am done" (demoWorld [] ["SARAH"] ∅ true true))
     = 0 + 1
  /\ productionIndex (speechTimeout_callback (demoWorld [] ["SARAH"] ∅ true true)) = 0 + 1.
Proof.
  split; [reflexivity |]. split; [reflexivity |]. split; [reflexivity |].
  destruct (live_line_advancement (demoWorld [] ["SARAH"] ∅ true true)
              (mkLine 1 "SARAH" "Hello there, my friend.") eq_refl eq_refl eq_refl)
    as (_ & Hkw & _ & _ & Htimeout).
  split; [exact (Hkw "I am done" eq_refl eq_refl) | exact Htimeout].
Defined.




(** ** The further theorems at concrete inputs *)

Lemma parseDialogue_provenance_witness :
  In (mkLine 2 "JOHN" "I am fine. Thanks!") (lines (parseDialogue demoText "demo.txt"))
  /\ isDialogue "I am fine. Thanks!" = true
  /\ length (lines (parseDialogue demoText "demo.txt")) <= length (textLines_of demoText).
Proof.
  assert (H : In (mkLine 2 "JOHN" "I am fine. Thanks!")
                 (lines (parseDialogue demoText "demo.txt")))
    by (vm_compute; right; left; reflexivity).
  destruct (parseDialogue_provenance demoText "demo.txt") as (_ & Hlen & Hrec).
  split; [exact H |]. split; [exact (proj1 (Hrec _ H)) | exact Hlen].
Defined.

Lemma isCharacterName_shape_witness :
  isCharacterName "MRS SMITH" = true /\ 2 <= String.length "MRS SMITH" <= 63.
Proof.
  split; [reflexivity |].
  exact (proj2 (isCharacterName_shape "MRS SMITH" eq_refl)).
Defined.

Lemma parseDialogue_without_names_witness :
  Forall (fun l => isCharacterName l = false) (textLines_of colonText)
  /\ parseDialogue colonText "script.txt" = mkResult [] [].
Proof.
  assert (H : Forall (fun l => isCharacterName l = false) (textLines_of colonText))
    by (repeat constructor).
  split; [exact H |].
  exact (parseDialogue_without_names colonText "script.txt" H).
Defined.

Lemma keyword_anywhere_advances_witness :
  In (Js.toLowerCase "DONE") completionWords
  /\ productionIndex
       (recognition_onresult ("I aban" +:+ "DONE" +:+ "d it")
          (demoWorld [] ["SARAH"] ∅ true true))
     = 0 + 1.
Proof.
  assert (H : In (Js.toLowerCase "DONE") completionWords) by (left; reflexivity).
  split; [exact H |].
  exact (proj2 (keyword_anywhere_advances (demoWorld [] ["SARAH"] ∅ true true)
                  "I aban" "DONE" "d it" H eq_refl eq_refl)).
Defined.

Lemma speechMatchesDialogue_verbatim_witness :
  speechMatchesDialogue (mkLine 1 "SARAH" "Hello there, my friend.")
    (Js.toLowerCase "HELLO THERE, MY FRIEND.") = true
  /\ speechMatchesDialogue (mkLine 1 "SARAH" "Oh no, not him") "oh no, not him" = false.
Proof.
  split.
  - apply (proj1 (speechMatchesDialogue_verbatim
                    (mkLine 1 "SARAH" "Hello there, my friend."))
             "HELLO THERE, MY FRIEND."); [discriminate | reflexivity].
  - apply (proj2 (speechMatchesDialogue_verbatim (mkLine 1 "SARAH" "Oh no, not him"))
             "oh no, not him"); [reflexivity | simpl; lia].
Defined.

Lemma demoSelection_ready : recordCharactersReady demoSelection.
Proof.
  intros c [<- | [<- | []]]; split; try (vm_compute; eauto; fail);
    vm_compute; discriminate.
Defined.

Lemma recording_session_never_throws_witness :
  recordCharacters (appState demoSelection) <> []
  /\ recordCharactersReady demoSelection
  /\ exists w0 w',
       startRecordingSession demoSelection = Normal w0
       /\ sessionRun renderFails w0 demoSession = Normal w'.
Proof.
  assert (Hsel : recordCharacters (appState demoSelection) <> []) by discriminate.
  split; [exact Hsel |]. split; [exact demoSelection_ready |].
  destruct (recording_session_never_throws renderFails demoSelection demoSession
              Hsel demoSelection_ready) as (w0 & w' & H0 & _ & _ & Hrun & _).
  now exists w0, w'.
Defined.


Lemma rerecordLine_removes_current_witness :
  currentCharacter (appState demoMonologue) = Some "SARAH"
  /\ recordingFor demoMonologue "SARAH" 2 = Some demoClip
  /\ exists w', rerecordLine demoMonologue = Normal w'
                /\ recordingFor w' "SARAH" 2 = None
                /\ recordingFor w' "SARAH" 3 = Some demoClip.
Proof.
  assert (Hm : audioRecordings (appState demoMonologue) !! "SARAH" = Some demoClips)
    by (vm_compute; reflexivity).
  split; [reflexivity |]. split; [vm_compute; reflexivity |].
  destruct (proj1 (rerecordLine_removes_current demoMonologue "SARAH" eq_refl)
              (mkLine 2 "SARAH" "How are you?") demoClips eq_refl Hm)
    as (w' & E & Hnone & Hother & _).
  exists w'. split; [exact E |]. split; [exact Hnone |].
  rewrite (Hother "SARAH" 3) by discriminate. vm_compute. reflexivity.
Defined.

Lemma recording_stores_its_chunks_witness :
  currentCharacter (appState demoMonologue) = Some "SARAH"
  /\ currentLine demoMonologue = Some (mkLine 2 "SARAH" "How are you?")
  /\ recordingFor
       (world_of (sessionStep renderFails
                    (deliver (startRecording true "none" demoMonologue)
                             [demoClip; demoClip])
                    S_recorderStopped))
       "SARAH" 2
     = Some (concat [demoClip; demoClip]).
Proof.
  assert (Hm : audioRecordings (appState demoMonologue) !! "SARAH" = Some demoClips)
    by (vm_compute; reflexivity).
  split; [reflexivity |]. split; [reflexivity |].
  exact (proj2 (proj2 (recording_stores_its_chunks renderFails demoMonologue
                         [demoClip; demoClip] "SARAH"
                         (mkLine 2 "SARAH" "How are you?") demoClips
                         eq_refl eq_refl Hm))).
Defined.

Lemma previousLine_within_character_witness :
  currentLineIndex (appState demoMonologue) + 1 < length (characterLines demoMonologue)
  /\ exists w1 w2,
       nextLine demoMonologue = Normal w1
       /\ previousLine w1 = Normal w2
       /\ appState w2 = appState demoMonologue.
Proof.
  assert (H : currentLineIndex (appState demoMonologue) + 1
              < length (characterLines demoMonologue)) by (vm_compute; lia).
  split; [exact H |].
  destruct (proj2 (proj2 (previousLine_within_character demoMonologue)) H)
    as (w1 & w2 & E1 & _ & E2 & Happ).
  now exists w1, w2.
Defined.

Lemma stopRecording_once_witness :
  mediaRecorder (appState (demoRecording "none")) = Some (mkRecorder "none")
  /\ isRecording (appState (demoRecording "none")) = true
  /\ timers (page (stopRecording (stopRecording (demoRecording "none"))))
     = [mkTimer 1 1000 CbNextLine].
Proof.
  split; [reflexivity |]. split; [reflexivity |].
  destruct (stopRecording_once (demoRecording "none")) as (Hidem & _ & Htm & _).
  rewrite Hidem. exact (Htm (mkRecorder "none") eq_refl eq_refl).
Defined.

Lemma keyword_while_recording_stops_witness :
  isRecording (appState (demoRecording "none")) = true
  /\ mediaRecorder (appState (demoRecording "none")) = Some (mkRecorder "none")
  /\ hasCompletionWord (Js.toLowerCase "Done") = true
  /\ isRecording (appState (recognition_onresult "Done" (demoRecording "none"))) = false
  /\ productionIndex (recognition_onresult "Done" (demoRecording "none"))
     = productionIndex (demoRecording "none").
Proof.
  split; [reflexivity |]. split; [reflexivity |]. split; [reflexivity |].
  destruct (keyword_while_recording_stops (demoRecording "none") "Done"
              (mkRecorder "none") eq_refl eq_refl eq_refl) as (_ & Hrec & Hidx & _).
  split; [exact Hrec | exact Hidx].
Defined.

Lemma unattended_production_finishes_witness :
  timers (page (demoWorld ["SARAH"] [] {["SARAH" := ∅]} true true)) = []
  /\ Forall (fun l => passedAtOnce (demoWorld ["SARAH"] [] {["SARAH" := ∅]} true true) l
                      = true)
            demoLines
  /\ productionIndex
       (fireMany 2 (startProduction (demoWorld ["SARAH"] [] {["SARAH" := ∅]} true true)))
     = 2
  /\ isProductionMode
       (appState (fireMany 2 (startProduction
                                (demoWorld ["SARAH"] [] {["SARAH" := ∅]} true true))))
     = false.
Proof.
  assert (Hpass : Forall (fun l => passedAtOnce
                                     (demoWorld ["SARAH"] [] {["SARAH" := ∅]} true true) l
                                   = true) demoLines)
    by (repeat constructor).
  split; [reflexivity |]. split; [exact Hpass |].
  destruct (unattended_production_finishes
              (demoWorld ["SARAH"] [] {["SARAH" := ∅]} true true) eq_refl Hpass)
    as (Hidx & Hmode & _).
  split; [exact Hidx | exact Hmode].
Defined.

Lemma paused_walk_goes_on_witness :
  isProductionMode (appState (pauseProduction demoProduction)) = false
  /\ isRecording (appState (pauseProduction demoProduction)) = false
  /\ recognition_onresult "done" (pauseProduction demoProduction)
     = clear_speechTimeout (pauseProduction demoProduction)
  /\ productionIndex (audio_onended (pauseProduction demoProduction))
     = productionIndex (pauseProduction demoProduction) + 1.
Proof.
  split; [reflexivity |]. split; [reflexivity |].
  destruct (paused_walk_goes_on (pauseProduction demoProduction) eq_refl eq_refl)
    as (Hres & _ & _ & _ & _ & _ & Hend).
  split; [exact (Hres "done") | exact Hend].
Defined.

Lemma stopProduction_handles_first_line_witness :
  nth_error (dialogueLines (appState demoProduction)) 0
  = Some (mkLine 1 "SARAH" "Hello there, my friend.")
  /\ isProductionMode (appState (stopProduction demoProduction)) = false
  /\ audios (page (stopProduction demoProduction))
     = audios (page demoProduction) ++ [demoClip].
Proof.
  split; [reflexivity |].
  destruct (stopProduction_handles_first_line demoProduction)
    as (Hmode & _ & _ & _ & Hplay).
  split; [exact Hmode |].
  assert (Hclip : recordingFor demoProduction "SARAH" 1 = Some demoClip)
    by (vm_compute; reflexivity).
  exact (proj2 (Hplay (mkLine 1 "SARAH" "Hello there, my friend.") demoClip
                  eq_refl eq_refl Hclip)).
Defined.

Lemma demoWorld_timersOk : timersOk (demoWorld [] ["SARAH"] ∅ true true).
Proof.
  split; [constructor |]. split; intros t [].
Defined.

Lemma one_speech_timeout_pending_witness :
  timersOk (demoWorld [] ["SARAH"] ∅ true true)
  /\ length (List.filter isSpeechTimeout
               (timers (page (run (demoWorld [] ["SARAH"] ∅ true true)
                                  [Speech_end; Speech_end; Speech_result "hm";
                                   Speech_end]))))
     <= 1.
Proof.
  split; [exact demoWorld_timersOk |].
  exact (proj1 (proj2 (one_speech_timeout_pending
                         (demoWorld [] ["SARAH"] ∅ true true)
                         [Speech_end; Speech_end; Speech_result "hm"; Speech_end]
                         demoWorld_timersOk))).
Defined.

Lemma audioBufferToBlob_layout_witness :
  exists bytes,
    Wav.audioBufferToBlob demoBuffer = Some bytes
    /\ length bytes = 52
    /\ Wav.getUint 4 24 bytes = 44100%Z.
Proof.
  destruct (WavFacts.audioBufferToBlob_layout demoBuffer)
    as (bytes & E & Hlen & _ & _ & _ & _ & _ & _ & _ & _ & Hrate & _).
  exists bytes. split; [exact E |]. split; [exact Hlen | exact Hrate].
Defined.

Lemma audioBufferToBlob_samples_witness :
  1 < Wav.frames demoBuffer
  /\ 0 < Wav.numberOfChannels demoBuffer
  /\ exists bytes,
       Wav.audioBufferToBlob demoBuffer = Some bytes
       /\ Wav.getInt16 (44 + 2 * (1 * 2 + 0)) bytes = 16383%Z.
Proof.
  assert (Hi : 1 < Wav.frames demoBuffer) by (simpl; lia).
  assert (Hc : 0 < Wav.numberOfChannels demoBuffer) by (simpl; lia).
  split; [exact Hi |]. split; [exact Hc |].
  destruct (WavFacts.audioBufferToBlob_samples demoBuffer 1 0 Hi Hc)
    as (bytes & E & Hs & _).
  exists bytes. split; [exact E | exact Hs].
Defined.

Lemma isSupportedFile_by_extension_witness :
  (Js.toLowerCase ".TXT" = ".txt" \/ Js.toLowerCase ".TXT" = ".fountain")
  /\ isSupportedFile ("My Script" +:+ ".TXT") = true.
Proof.
  assert (H : Js.toLowerCase ".TXT" = ".txt" \/ Js.toLowerCase ".TXT" = ".fountain")
    by (left; reflexivity).
  split; [exact H |].
  exact (proj1 (isSupportedFile_by_extension "My Script" ".TXT" H)).
Defined.
